(** * Merge request dependencies of go-gitlab: a shallow embedding

    This development embeds [merge_request_dependencies.go] of the
    go-gitlab client: the three methods of
    [MergeRequestDependenciesService], the struct declarations they
    exchange with the server, and the part of Go's [encoding/json] and
    of the query encoder that the struct tags of those declarations
    drive.

    The methods talk to the rest of the client through four functions
    that live elsewhere: [parseID], [PathEscape], [Client.NewRequest]
    and [Client.Do].  The first two are pure and are parameters (class
    [Identifiers]); the last two are effects, and a method is a small
    program over them (type [prog]), run against any implementation of
    the client (record [Client]) while every call is written to a log.
    The types that the declarations borrow from other files
    ([BasicUser], [time.Time], ...) are parameters too (class
    [External]). *)

From Stdlib Require Import String Ascii ZArith List Bool Lia.
From Stdlib Require Import DecimalString.
From Stdlib Require DecimalZ DecimalPos.
From ExtLib Require Import Structures.Monad.
Import ListNotations.
Import MonadNotation.
Local Open Scope string_scope.
Local Open Scope Z_scope.
Local Open Scope monad_scope.

Set Implicit Arguments.

(** ** Errors and fallible results *)

(** A non-nil Go [error]: all the methods do with one is hand it on. *)
Inductive error : Type :=
| errorString (msg : string).

(** A Go result pair [(T, error)] of a function that returns either a
    value with a nil error or a non-nil error. *)
Inductive result (A : Type) : Type :=
| Ok (a : A)
| Err (e : error).

Arguments Ok {A} a.
Arguments Err {A} e.

#[global] Instance Monad_result : Monad result :=
  {| ret := fun _ a => Ok a;
     bind := fun _ _ c k => match c with
                            | Ok a => k a
                            | Err e => Err e
                            end |}.

(** A Go slice: [None] is the nil slice, [Some l] a non-nil slice with
    the elements [l] ([Some []] is the empty, non-nil slice). *)
Definition slice (A : Type) : Type := option (list A).

(** ** Strings *)

(** [strconv.Itoa], also what the verb [%d] of [fmt.Sprintf] prints. *)
Definition itoa (n : Z) : string := NilZero.string_of_int (Z.to_int n).

(** The number of positions of [s] at which [sub] starts. *)
Fixpoint occurrences (sub s : string) : nat :=
  ((if prefix sub s then 1 else 0) +
   match s with
   | EmptyString => 0
   | String _ s' => occurrences sub s'
   end)%nat.

(** The segments of a path: [strings.Split(s, "/")]. *)
Fixpoint segments (s : string) : list string :=
  match s with
  | EmptyString => [EmptyString]
  | String c s' =>
      if Ascii.eqb c "/" then EmptyString :: segments s'
      else match segments s' with
           | [] => [String c EmptyString]
           | x :: xs => String c x :: xs
           end
  end.

(** No byte of [s] is a slash. *)
Fixpoint no_slash (s : string) : bool :=
  match s with
  | EmptyString => true
  | String c s' => negb (Ascii.eqb c "/") && no_slash s'
  end.

(** The key folding of [encoding/json]: two keys match without regard
    to case when their folded names are equal.  ASCII letters fold to
    upper case; the two non-ASCII runes whose case orbit contains an
    ASCII letter, U+017F (long s, bytes C5 BF) and U+212A (Kelvin sign,
    bytes E2 84 AA), fold to [S] and [K]; any other byte is kept, so a
    key with another non-ASCII rune never matches an ASCII tag. *)
Definition upper (c : ascii) : ascii :=
  let n := nat_of_ascii c in
  if ((97 <=? n) && (n <=? 122))%nat then ascii_of_nat (n - 32) else c.

Fixpoint foldName (s : string) : string :=
  match s with
  | EmptyString => EmptyString
  | String c s' =>
      match nat_of_ascii c, s' with
      | 197%nat, String d s'' =>
          if (nat_of_ascii d =? 191)%nat then String "S" (foldName s'')
          else String c (foldName s')
      | 226%nat, String d (String e s'') =>
          if ((nat_of_ascii d =? 132) && (nat_of_ascii e =? 170))%nat
          then String "K" (foldName s'')
          else String c (foldName s')
      | _, _ => String (upper c) (foldName s')
      end
  end.

(** ** JSON documents

    A payload is taken after lexing, as the tree the decoder walks.  A
    number literal is kept as an integer when it is written as one, and
    as its text otherwise (a fraction or an exponent), which is all the
    decoding of an [int] looks at. *)
#[warnings="-register-all"]
Inductive json : Type :=
| JNull
| JBool (b : bool)
| JNum (n : Z)
| JReal (literal : string)
| JStr (s : string)
| JArr (items : list json)
| JObj (members : list (string * json)).

(** ** Go types and values, as the reflection of [encoding/json] sees them *)

(** A struct tag [`json:"name"`] or [`json:"name,omitempty"`] (the same
    shape serves for [url:] tags). *)
Record tag : Type := Tag { tag_name : string; omitempty : bool }.

(** The types that occur in the declarations of this file.  [TNamed]
    is a type declared elsewhere ([time.Time], [BasicUser], ...): the
    decoder reaches it through the parameters of class [External]. *)
#[warnings="-register-all"]
Inductive gotype : Type :=
| TInt
| TString
| TBool
| TNamed (name : string)
| TPtr (elem : gotype)
| TSlice (elem : gotype)
| TStruct (fields : list field)
with field : Type :=
| Field (name : string) (ty : gotype) (json_tag : tag) (url_tag : option tag).

Definition field_name (f : field) : string :=
  let 'Field n _ _ _ := f in n.
Definition field_type (f : field) : gotype :=
  let 'Field _ t _ _ := f in t.
Definition field_json (f : field) : tag :=
  let 'Field _ _ j _ := f in j.
Definition field_url (f : field) : option tag :=
  let 'Field _ _ _ u := f in u.

(** What is known of the types declared outside this file: their
    values, the zero value of each, how a JSON value is decoded into a
    variable of the type that holds [cur] (the type's [UnmarshalJSON]
    when it has one, the default decoding otherwise), how a value is
    encoded, and which values [omitempty] takes for empty. *)
Class External : Type := {
  ext : Type;
  zeroExt : string -> ext;
  unmarshalExt : string -> json -> ext -> result ext;
  marshalExt : string -> ext -> json;
  emptyExt : string -> ext -> bool;
}.

Section Values.
Context {E : External}.

(** Go values.  [VNil] is the nil pointer and the nil slice; a struct
    value lists its fields in declaration order under their Go names. *)
#[warnings="-register-all"]
Inductive value : Type :=
| VInt (n : Z)
| VString (s : string)
| VBool (b : bool)
| VExt (x : ext)
| VNil
| VPtr (v : value)
| VSlice (elems : list value)
| VStruct (fields : list (string * value)).

(** The zero value of a type. *)
Fixpoint zero (t : gotype) : value :=
  match t with
  | TInt => VInt 0
  | TString => VString ""
  | TBool => VBool false
  | TNamed name => VExt (zeroExt name)
  | TPtr _ => VNil
  | TSlice _ => VNil
  | TStruct fields =>
      VStruct ((fix zeros (fs : list field) : list (string * value) :=
                  match fs with
                  | [] => []
                  | Field name ty _ _ :: fs' => (name, zero ty) :: zeros fs'
                  end) fields)
  end.

(** The fields of the zero value of a struct ([zero_struct] below). *)
Fixpoint zero_fields (ds : list field) : list (string * value) :=
  match ds with
  | [] => []
  | d :: ds' => (field_name d, zero (field_type d)) :: zero_fields ds'
  end.

(** Field selection [v.name] and field assignment [v.name = x] on a
    struct value. *)
Fixpoint get_field (name : string) (fs : list (string * value)) : option value :=
  match fs with
  | [] => None
  | (n, x) :: fs' => if String.eqb n name then Some x else get_field name fs'
  end.

Fixpoint set_field (name : string) (x : value) (fs : list (string * value))
  : list (string * value) :=
  match fs with
  | [] => []
  | (n, y) :: fs' =>
      if String.eqb n name then (n, x) :: fs' else (n, y) :: set_field name x fs'
  end.

Definition sel (name : string) (v : value) : option value :=
  match v with
  | VStruct fs => get_field name fs
  | _ => None
  end.

(** Is the value nil (a nil pointer or a nil slice)? *)
Definition is_nil (v : value) : bool :=
  match v with
  | VNil => true
  | _ => false
  end.

End Values.

(** ** Decoding: [json.Unmarshal] *)

Section Unmarshal.
Context {E : External}.

(** The range of a Go [int] (64 bits). *)
Definition in_int (n : Z) : bool := (- 2 ^ 63 <=? n) && (n <? 2 ^ 63).

(** [UnmarshalTypeError]: a JSON value that the Go type cannot hold. *)
Definition type_error (what goty : string) : error :=
  errorString ("json: cannot unmarshal " ++ what ++ " into Go value of type " ++ goty).

(** The kind of a JSON value, as error messages name it. *)
Definition kind_of (j : json) : string :=
  match j with
  | JNull => "null"
  | JBool _ => "bool"
  | JNum _ | JReal _ => "number"
  | JStr _ => "string"
  | JArr _ => "array"
  | JObj _ => "object"
  end.

(** Which field a key selects: the field whose tag is the key when
    there is one, and else the first field whose tag folds to the same
    name as the key. *)
Definition key_matcher (fields : list field) (k : string) : string -> bool :=
  if existsb (fun f => String.eqb (tag_name (field_json f)) k) fields
  then fun n => String.eqb n k
  else fun n => String.eqb (foldName n) (foldName k).

(** [unmarshal t j cur] decodes [j] into a variable of type [t] that
    holds [cur], and gives the variable's new contents.

    - [null] sets a pointer or a slice to nil and leaves anything else
      as it is;
    - a number, string or boolean must meet the scalar type, and an
      [int] takes only an integer literal in range;
    - a pointer is allocated when nil and then decoded through;
    - an array gives a slice of as many elements, element [i] decoded
      into the old element [i] when the slice had one and into a zero
      value otherwise;
    - an object is decoded member by member, in payload order, each
      into the field its key selects; a key that selects no field is
      skipped.

    On an error the decoder of Go has written part of the target; the
    methods of this file drop the target in that case, and the model
    keeps the error only. *)
Fixpoint unmarshal (t : gotype) (j : json) (cur : value) {struct t} : result value :=
  match t with
  | TInt =>
      match j with
      | JNull => Ok cur
      | JNum n => if in_int n then Ok (VInt n) else Err (type_error "number" "int")
      | _ => Err (type_error (kind_of j) "int")
      end
  | TString =>
      match j with
      | JNull => Ok cur
      | JStr s => Ok (VString s)
      | _ => Err (type_error (kind_of j) "string")
      end
  | TBool =>
      match j with
      | JNull => Ok cur
      | JBool b => Ok (VBool b)
      | _ => Err (type_error (kind_of j) "bool")
      end
  | TNamed name =>
      x <- unmarshalExt name j (match cur with
                                | VExt x => x
                                | _ => zeroExt name
                                end) ;;
      ret (VExt x)
  | TPtr elem =>
      match j with
      | JNull => Ok VNil
      | _ =>
          x <- unmarshal elem j (match cur with
                                 | VPtr x => x
                                 | _ => zero elem
                                 end) ;;
          ret (VPtr x)
      end
  | TSlice elem =>
      match j with
      | JNull => Ok VNil
      | JArr items =>
          xs <- (fix elems (items : list json) (old : list value)
                   : result (list value) :=
                   match items with
                   | [] => Ok []
                   | i :: items' =>
                       x <- unmarshal elem i (hd (zero elem) old) ;;
                       xs <- elems items' (tl old) ;;
                       ret (x :: xs)
                   end) items (match cur with
                               | VSlice old => old
                               | _ => []
                               end) ;;
          ret (VSlice xs)
      | _ => Err (type_error (kind_of j) "slice")
      end
  | TStruct fields =>
      match j with
      | JNull => Ok cur
      | JObj members =>
          fs <- (fix object (ms : list (string * json)) (fs : list (string * value))
                   : result (list (string * value)) :=
                   match ms with
                   | [] => Ok fs
                   | (k, j') :: ms' =>
                       fs' <- (fix into (ds : list field)
                                 : result (list (string * value)) :=
                                 match ds with
                                 | [] => Ok fs
                                 | Field name ty jt _ :: ds' =>
                                     if key_matcher fields k (tag_name jt)
                                     then
                                       x <- unmarshal ty j'
                                              (match get_field name fs with
                                               | Some y => y
                                               | None => zero ty
                                               end) ;;
                                       ret (set_field name x fs)
                                     else into ds'
                                 end) fields ;;
                       object ms' fs'
                   end) members (match cur with
                                 | VStruct fs => fs
                                 | _ => match zero t with
                                        | VStruct fs => fs
                                        | _ => []
                                        end
                                 end) ;;
          ret (VStruct fs)
      | _ => Err (type_error (kind_of j) "struct")
      end
  end.

(** The three loops of [unmarshal], named: the field a key selects,
    the decoding of one member, of the members of an object, and of the
    items of an array.  [unmarshal] unfolds to them
    ([unmarshal_struct], [unmarshal_slice] below). *)
Fixpoint select_field (p : string -> bool) (ds : list field) : option field :=
  match ds with
  | [] => None
  | d :: ds' => if p (tag_name (field_json d)) then Some d else select_field p ds'
  end.

Definition decode_member (fields : list field) (k : string) (j : json)
    (fs : list (string * value)) : result (list (string * value)) :=
  match select_field (key_matcher fields k) fields with
  | None => Ok fs
  | Some d =>
      x <- unmarshal (field_type d) j
             (match get_field (field_name d) fs with
              | Some y => y
              | None => zero (field_type d)
              end) ;;
      ret (set_field (field_name d) x fs)
  end.

Fixpoint decode_object (fields : list field) (ms : list (string * json))
    (fs : list (string * value)) : result (list (string * value)) :=
  match ms with
  | [] => Ok fs
  | (k, j) :: ms' =>
      fs' <- decode_member fields k j fs ;;
      decode_object fields ms' fs'
  end.

Fixpoint decode_elems (elem : gotype) (items : list json) (old : list value)
  : result (list value) :=
  match items with
  | [] => Ok []
  | i :: items' =>
      x <- unmarshal elem i (hd (zero elem) old) ;;
      xs <- decode_elems elem items' (tl old) ;;
      ret (x :: xs)
  end.

(** The Go name of the field that a key selects in a struct type. *)
Definition selected_name (fields : list field) (k : string) : option string :=
  option_map field_name (select_field (key_matcher fields k) fields).

(** The Go names of the fields of a struct type and of a struct value. *)
Definition field_names (ds : list field) : list string := map field_name ds.
Definition value_names (fs : list (string * value)) : list string := map fst fs.

(** The kinds of type that have a nil value. *)
Definition nilable (t : gotype) : bool :=
  match t with
  | TPtr _ | TSlice _ => true
  | _ => false
  end.

(** A non-null JSON value that a nilable type takes without a type
    error of its own: anything but [null] for a pointer, an array for
    a slice. *)
Definition fills (t : gotype) (j : json) : bool :=
  match t, j with
  | TPtr _, JNull => false
  | TPtr _, _ => true
  | TSlice _, JArr _ => true
  | _, _ => false
  end.

(** The JSON text of the zero value of a scalar type. *)
Definition zero_json (t : gotype) : option json :=
  match t with
  | TInt => Some (JNum 0)
  | TString => Some (JStr "")
  | TBool => Some (JBool false)
  | _ => None
  end.

End Unmarshal.

(** ** The declarations of [merge_request_dependencies.go] *)

(** The types this file uses and does not declare. *)
Definition time_Time : gotype := TNamed "time.Time".
Definition BasicUser : gotype := TNamed "BasicUser".
Definition LabelOptions : gotype := TNamed "LabelOptions".
Definition IssueReferences : gotype := TNamed "IssueReferences".
Definition TimeStats : gotype := TNamed "TimeStats".
Definition TasksCompletionStatus : gotype := TNamed "TasksCompletionStatus".

(** A field that carries the tag [`json:"key"`] and no other. *)
Definition json_field (name : string) (ty : gotype) (key : string) : field :=
  Field name ty (Tag key false) None.

(** [type BlockingMergeRequest struct], field by field. *)
Definition BlockingMergeRequest_fields : list field :=
  [
    json_field "ID" TInt "id";
    json_field "Iid" TInt "iid";
    json_field "TargetBranch" TString "target_branch";
    json_field "SourceBranch" TString "source_branch";
    json_field "ProjectID" TInt "project_id";
    json_field "Title" TString "title";
    json_field "State" TString "state";
    json_field "CreatedAt" time_Time "created_at";
    json_field "UpdatedAt" time_Time "updated_at";
    json_field "Upvotes" TInt "upvotes";
    json_field "Downvotes" TInt "downvotes";
    json_field "Author" (TPtr BasicUser) "author";
    json_field "Assignee" (TPtr BasicUser) "assignee";
    json_field "Assignees" (TSlice (TPtr BasicUser)) "assignees";
    json_field "Reviewers" (TSlice (TPtr BasicUser)) "reviewers";
    json_field "SourceProjectID" TInt "source_project_id";
    json_field "TargetProjectID" TInt "target_project_id";
    json_field "Labels" (TPtr LabelOptions) "labels";
    json_field "Description" TString "description";
    json_field "Draft" TBool "draft";
    json_field "WorkInProgress" TBool "work_in_progress";
    json_field "Milestone" (TPtr TString) "milestone";
    json_field "MergeWhenPipelineSucceeds" TBool "merge_when_pipeline_succeeds";
    json_field "DetailedMergeStatus" TString "detailed_merge_status";
    json_field "MergedBy" (TPtr BasicUser) "merged_by";
    json_field "MergedAt" (TPtr time_Time) "merged_at";
    json_field "ClosedBy" (TPtr BasicUser) "closed_by";
    json_field "ClosedAt" (TPtr time_Time) "closed_at";
    json_field "Sha" TString "sha";
    json_field "MergeCommitSha" TString "merge_commit_sha";
    json_field "SquashCommitSha" TString "squash_commit_sha";
    json_field "UserNotesCount" TInt "user_notes_count";
    json_field "ShouldRemoveSourceBranch" (TPtr TBool) "should_remove_source_branch";
    json_field "ForceRemoveSourceBranch" TBool "force_remove_source_branch";
    json_field "WebURL" TString "web_url";
    json_field "References" (TPtr IssueReferences) "references";
    json_field "DiscussionLocked" (TPtr TBool) "discussion_locked";
    json_field "TimeStats" (TPtr TimeStats) "time_stats";
    json_field "Squash" TBool "squash";
    json_field "ApprovalsBeforeMerge" (TPtr TInt) "approvals_before_merge";
    json_field "Reference" TString "reference";
    json_field "TaskCompletionStatus" (TPtr TasksCompletionStatus) "task_completion_status";
    json_field "HasConflicts" TBool "has_conflicts";
    json_field "BlockingDiscussionsResolved" TBool "blocking_discussions_resolved";
    json_field "MergeStatus" TString "merge_status";
    json_field "MergeUser" (TPtr BasicUser) "merge_user";
    json_field "MergeAfter" time_Time "merge_after";
    json_field "Imported" TBool "imported";
    json_field "ImportedFrom" TString "imported_from";
    json_field "PreparedAt" (TPtr time_Time) "prepared_at";
    json_field "SquashOnMerge" TBool "squash_on_merge"
  ].

Definition BlockingMergeRequest : gotype := TStruct BlockingMergeRequest_fields.

(** [type MergeRequestDependency struct]. *)
Definition MergeRequestDependency_fields : list field :=
  [
    json_field "ID" TInt "id";
    json_field "BlockingMergeRequest" BlockingMergeRequest "blocking_merge_request";
    json_field "ProjectID" TInt "project_id"
  ].

Definition MergeRequestDependency : gotype := TStruct MergeRequestDependency_fields.

(** [type CreateMergeRequestDependencyOptions struct]: one field, with
    the tags [url:"blocking_merge_request_id,omitempty"] and
    [json:"blocking_merge_request_id,omitempty"]. *)
Record CreateMergeRequestDependencyOptions : Type :=
  { BlockingMergeRequestID : Z }.

Definition CreateMergeRequestDependencyOptions_fields : list field :=
  [
    Field "BlockingMergeRequestID" TInt
      (Tag "blocking_merge_request_id" true)
      (Some (Tag "blocking_merge_request_id" true))
  ].

Definition CreateMergeRequestDependencyOptions_type : gotype :=
  TStruct CreateMergeRequestDependencyOptions_fields.

(** ** Encoding: [json.Marshal] and the query encoder *)

Section Marshal.
Context {E : External}.

(** [isEmptyValue]: what a field tagged [omitempty] is left out for. *)
Definition is_empty_value (t : gotype) (v : value) : bool :=
  match t, v with
  | TInt, VInt n => n =? 0
  | TString, VString s => String.eqb s ""
  | TBool, VBool b => negb b
  | TNamed name, VExt x => emptyExt name x
  | TPtr _, VNil => true
  | TSlice _, VNil => true
  | TSlice _, VSlice [] => true
  | _, _ => false
  end.

(** [json.Marshal]: a struct becomes an object with one member per
    field, under the name of the field's [json] tag, in declaration
    order, without the empty fields tagged [omitempty]. *)
Fixpoint marshal (t : gotype) (v : value) {struct t} : json :=
  match t, v with
  | TInt, VInt n => JNum n
  | TString, VString s => JStr s
  | TBool, VBool b => JBool b
  | TNamed name, VExt x => marshalExt name x
  | TPtr elem, VPtr x => marshal elem x
  | TSlice elem, VSlice xs => JArr (map (marshal elem) xs)
  | TStruct fields, VStruct fs =>
      JObj ((fix members (ds : list field) : list (string * json) :=
               match ds with
               | [] => []
               | Field name ty jt _ :: ds' =>
                   match get_field name fs with
                   | Some x =>
                       if omitempty jt && is_empty_value ty x then members ds'
                       else (tag_name jt, marshal ty x) :: members ds'
                   | None => members ds'
                   end
               end) fields)
  | _, _ => JNull
  end.

(** The text of a scalar in a query string. *)
Definition query_scalar (v : value) : option string :=
  match v with
  | VInt n => Some (itoa n)
  | VString s => Some s
  | VBool b => Some (if b then "true" else "false")
  | _ => None
  end.

(** [query.Values] on a struct whose fields are scalars: one pair per
    field, under the name of the [url] tag (the Go name without one),
    without the empty fields tagged [omitempty].  [None] when a field
    is not a scalar: the encoding of those is not modelled. *)
Fixpoint query_values (ds : list field) (fs : list (string * value))
  : option (list (string * string)) :=
  match ds with
  | [] => Some []
  | Field name ty _ ut :: ds' =>
      match get_field name fs, query_values ds' fs with
      | Some x, Some rest =>
          let key := match ut with
                     | Some u => tag_name u
                     | None => name
                     end in
          let omit := match ut with
                      | Some u => omitempty u
                      | None => false
                      end in
          if omit && is_empty_value ty x then Some rest
          else match query_scalar x with
               | Some text => Some ((key, text) :: rest)
               | None => None
               end
      | _, _ => None
      end
  end.

(** The options as a Go value, and their two serializations: the JSON
    body and the query string. *)
Definition options_value (opts : CreateMergeRequestDependencyOptions) : value :=
  VStruct [("BlockingMergeRequestID", VInt (BlockingMergeRequestID opts))].

Definition options_body (opts : CreateMergeRequestDependencyOptions) : json :=
  marshal CreateMergeRequestDependencyOptions_type (options_value opts).

Definition options_query (opts : CreateMergeRequestDependencyOptions)
  : option (list (string * string)) :=
  query_values CreateMergeRequestDependencyOptions_fields
    [("BlockingMergeRequestID", VInt (BlockingMergeRequestID opts))].

(** The members of an object ([[]] for any other JSON value). *)
Definition members_of (j : json) : list (string * json) :=
  match j with
  | JObj ms => ms
  | _ => []
  end.

(** Does a serialization name the key? *)
Definition has_key {A : Type} (k : string) (kvs : list (string * A)) : bool :=
  existsb (fun kv => String.eqb (fst kv) k) kvs.

End Marshal.

(** ** The client, as the methods see it *)

(** The method names of [net/http]. *)
Module http.
Definition MethodGet : string := "GET".
Definition MethodPost : string := "POST".
Definition MethodDelete : string := "DELETE".
End http.

(** A prepared request, the response metadata, and a per-call option
    are values of the client: the methods only pass them along. *)
Class ClientTypes : Type := {
  Request : Type;
  Response : Type;
  RequestOptionFunc : Type;
}.

(** The dynamic type [interface{}] of the parameter [pid], and the two
    helpers of the client that turn a [pid] into a path segment. *)
Class Identifiers : Type := {
  any : Type;
  parseID : any -> result string;
  PathEscape : string -> string;
}.

Section Service.
Context {E : External} {T : ClientTypes}.

(** What [Client.Do] hands back: the response (possibly nil), the
    error (possibly nil) and, for a call with a target [v], what the
    target holds after the call. *)
Record DoReturn : Type :=
  { do_resp : option Response;
    do_err : option error;
    do_v : slice value }.

(** The two calls a method makes on [s.client].

    - [NewRequest method u opt options]: [opt] is the options struct
      to serialize, or nil;
    - [Do req v]: [v] is nil, or points to a slice variable that holds
      the given contents. *)
Inductive clientE : Type -> Type :=
| NewRequest (method u : string)
             (opt : option CreateMergeRequestDependencyOptions)
             (options : list RequestOptionFunc) : clientE (result Request)
| Do (req : Request) (v : option (slice value)) : clientE DoReturn.

(** A method body: it returns, or makes a call and goes on with the
    answer. *)
Inductive prog (R : Type) : Type :=
| Ret (r : R)
| Vis (X : Type) (e : clientE X) (k : X -> prog R).

Arguments Ret {R} r.
Arguments Vis {R X} e k.

Fixpoint prog_bind {A B : Type} (p : prog A) (f : A -> prog B) : prog B :=
  match p with
  | Ret a => f a
  | Vis e k => Vis e (fun x => prog_bind (k x) f)
  end.

#[global] Instance Monad_prog : Monad prog :=
  {| ret := fun _ a => Ret a;
     bind := fun _ _ p f => prog_bind p f |}.

Definition call {X : Type} (e : clientE X) : prog X := Vis e Ret.

(** *** Running a method against a client *)

(** An implementation of the client over a state [World] of its own
    (connections, the server, counters of a test double, ...). *)
Record Client (World : Type) : Type :=
  { client_NewRequest :
      string -> string -> option CreateMergeRequestDependencyOptions ->
      list RequestOptionFunc -> World -> result Request * World;
    client_Do :
      Request -> option (slice value) -> World -> DoReturn * World }.

(** An entry of the log: a call with its arguments and its answer. *)
Inductive entry : Type :=
| CallNewRequest (method u : string)
                 (opt : option CreateMergeRequestDependencyOptions)
                 (options : list RequestOptionFunc) (r : result Request)
| CallDo (req : Request) (v : option (slice value)) (r : DoReturn).

Definition is_NewRequest (c : entry) : bool :=
  match c with
  | CallNewRequest _ _ _ _ _ => true
  | CallDo _ _ _ => false
  end.

Definition is_Do (c : entry) : bool := negb (is_NewRequest c).

(** The paths of the requests built in a log. *)
Fixpoint request_paths (log : list entry) : list string :=
  match log with
  | [] => []
  | CallNewRequest _ u _ _ _ :: log' => u :: request_paths log'
  | CallDo _ _ _ :: log' => request_paths log'
  end.

(** The options structs handed to [NewRequest] in a log. *)
Fixpoint request_opts (log : list entry)
  : list (option CreateMergeRequestDependencyOptions) :=
  match log with
  | [] => []
  | CallNewRequest _ _ opt _ _ :: log' => opt :: request_opts log'
  | CallDo _ _ _ :: log' => request_opts log'
  end.

Section Run.
Variable World : Type.
Variable c : Client World.

Definition handle {X : Type} (e : clientE X) : World -> X * World :=
  match e in clientE X return World -> X * World with
  | NewRequest method u opt options => client_NewRequest c method u opt options
  | Do req v => client_Do c req v
  end.

Definition log_entry {X : Type} (e : clientE X) : X -> entry :=
  match e in clientE X return X -> entry with
  | NewRequest method u opt options => CallNewRequest method u opt options
  | Do req v => CallDo req v
  end.

(** [run p w]: the value [p] returns, the client's final state, and
    the calls made, oldest first. *)
Fixpoint run {R : Type} (p : prog R) (w : World) : R * World * list entry :=
  match p with
  | Ret r => (r, w, [])
  | Vis e k =>
      let (x, w') := handle e w in
      let '(r, w'', log) := run (k x) w' in
      (r, w'', log_entry e x :: log)
  end.

(** What a method does once the identifier is accepted: one call of
    [NewRequest] and, when that gives a request, one call of [Do] on
    it; the pair of [Do] is returned. *)
Definition one_round_trip (method u : string)
    (opt : option CreateMergeRequestDependencyOptions)
    (options : list RequestOptionFunc) (w : World)
    (out : (option Response * option error) * World * list entry) : Prop :=
  exists r w1,
    client_NewRequest c method u opt options w = (r, w1)
    /\ match r with
       | Err err =>
           out = ((None, Some err), w1,
                  [CallNewRequest method u opt options r])
       | Ok req =>
           exists d w2,
             client_Do c req None w1 = (d, w2)
             /\ out = ((do_resp d, do_err d), w2,
                       [CallNewRequest method u opt options r;
                        CallDo req None d])
       end.

(** The same for [GetMergeRequestDependencies]: the call of [Do] has
    the nil slice [mrd] for target, and the slice is returned unless
    [Do] gave an error. *)
Definition one_listing (u : string) (options : list RequestOptionFunc)
    (w : World)
    (out : (slice value * option Response * option error) * World * list entry)
  : Prop :=
  exists r w1,
    client_NewRequest c http.MethodGet u None options w = (r, w1)
    /\ match r with
       | Err err =>
           out = ((None, None, Some err), w1,
                  [CallNewRequest http.MethodGet u None options r])
       | Ok req =>
           exists d w2,
             client_Do c req (Some None) w1 = (d, w2)
             /\ out = ((match do_err d with
                        | Some _ => None
                        | None => do_v d
                        end, do_resp d, do_err d), w2,
                       [CallNewRequest http.MethodGet u None options r;
                        CallDo req (Some None) d])
       end.

End Run.

(** *** The methods of [MergeRequestDependenciesService] *)

Context {I : Identifiers}.

(** [fmt.Sprintf("projects/%s/merge_requests/%d/blocks", ...)]. *)
Definition blocks_path (project : string) (mergeRequest : Z) : string :=
  "projects/" ++ project ++ "/merge_requests/" ++ itoa mergeRequest ++ "/blocks".

(** [fmt.Sprintf("projects/%s/merge_requests/%d/blocks/%d", ...)]. *)
Definition block_path (project : string) (mergeRequest blockingMergeRequest : Z)
  : string :=
  "projects/" ++ project ++ "/merge_requests/" ++ itoa mergeRequest
    ++ "/blocks/" ++ itoa blockingMergeRequest.

Definition CreateMergeRequestDependency
    (pid : any) (mergeRequest : Z) (opts : CreateMergeRequestDependencyOptions)
    (options : list RequestOptionFunc) : prog (option Response * option error) :=
  match parseID pid with
  | Err err => ret (None, Some err)
  | Ok project =>
      let u := blocks_path (PathEscape project) mergeRequest in
      r <- call (NewRequest http.MethodPost u (Some opts) options) ;;
      match r with
      | Err err => ret (None, Some err)
      | Ok req =>
          d <- call (Do req None) ;;
          let resp := do_resp d in
          let err := do_err d in
          match err with
          | Some _ => ret (resp, err)
          | None => ret (resp, err)
          end
      end
  end.

Definition DeleteMergeRequestDependency
    (pid : any) (mergeRequest blockingMergeRequest : Z)
    (options : list RequestOptionFunc) : prog (option Response * option error) :=
  match parseID pid with
  | Err err => ret (None, Some err)
  | Ok project =>
      let u := block_path (PathEscape project) mergeRequest blockingMergeRequest in
      r <- call (NewRequest http.MethodDelete u None options) ;;
      match r with
      | Err err => ret (None, Some err)
      | Ok req =>
          d <- call (Do req None) ;;
          let resp := do_resp d in
          let err := do_err d in
          match err with
          | Some _ => ret (resp, err)
          | None => ret (resp, err)
          end
      end
  end.

Definition GetMergeRequestDependencies
    (pid : any) (mergeRequest : Z) (options : list RequestOptionFunc)
  : prog (slice value * option Response * option error) :=
  match parseID pid with
  | Err err => ret (None, None, Some err)
  | Ok project =>
      let u := blocks_path (PathEscape project) mergeRequest in
      r <- call (NewRequest http.MethodGet u None options) ;;
      match r with
      | Err err => ret (None, None, Some err)
      | Ok req =>
          let mrd : slice value := None in
          d <- call (Do req (Some mrd)) ;;
          let mrd := do_v d in
          let resp := do_resp d in
          let err := do_err d in
          match err with
          | Some _ => ret (None, resp, err)
          | None => ret (mrd, resp, err)
          end
      end
  end.

End Service.


(** ** The methods without the final conditional

    [CreateMergeRequestDependency] and [DeleteMergeRequestDependency]
    end in [if err != nil { return resp, err }; return resp, err].  The
    two definitions below hand back the pair of the last call as it is. *)

Section Direct.
Context {E : External} {T : ClientTypes} {I : Identifiers}.

Definition CreateMergeRequestDependency_direct
    (pid : any) (mergeRequest : Z) (opts : CreateMergeRequestDependencyOptions)
    (options : list RequestOptionFunc) : prog (option Response * option error) :=
  match parseID pid with
  | Err err => ret (None, Some err)
  | Ok project =>
      let u := blocks_path (PathEscape project) mergeRequest in
      r <- call (NewRequest http.MethodPost u (Some opts) options) ;;
      match r with
      | Err err => ret (None, Some err)
      | Ok req => d <- call (Do req None) ;; ret (do_resp d, do_err d)
      end
  end.

Definition DeleteMergeRequestDependency_direct
    (pid : any) (mergeRequest blockingMergeRequest : Z)
    (options : list RequestOptionFunc) : prog (option Response * option error) :=
  match parseID pid with
  | Err err => ret (None, Some err)
  | Ok project =>
      let u := block_path (PathEscape project) mergeRequest blockingMergeRequest in
      r <- call (NewRequest http.MethodDelete u None options) ;;
      match r with
      | Err err => ret (None, Some err)
      | Ok req => d <- call (Do req None) ;; ret (do_resp d, do_err d)
      end
  end.

End Direct.

(** ** The helpers of the client that are declared in other files *)

Section Decoding.
Context {E : External} {T : ClientTypes}.
Variable World : Type.

Definition slice_value (m : slice value) : value :=
  match m with
  | None => VNil
  | Some l => VSlice l
  end.

Definition value_slice (v : value) : slice value :=
  match v with
  | VSlice l => Some l
  | _ => None
  end.

(** Modelled from the spec: request execution, [Client.Do], declared
    in another file of the client: "(request, target-to-decode-into)
    -> (response-metadata, error); when the target is omitted, no body
    is decoded"; a transport error and a decoding error are both handed
    back with the response metadata.  [roundTrip] stands for the
    network: it gives the metadata, the transport error if any, and the
    body received.  The target of the one call with a target in this
    file is a slice of [MergeRequestDependency].  After a decoding
    error the target is handed back as it was before the call (in Go it
    is partly written); [GetMergeRequestDependencies] drops it in that
    case, whatever it holds. *)
Definition Do_decoding
    (roundTrip : Request -> World -> option Response * option error * json * World)
    (req : Request) (v : option (slice value)) (w : World) : DoReturn * World :=
  let '(resp, err, body, w') := roundTrip req w in
  match err, v with
  | Some e, Some cur => ({| do_resp := resp; do_err := Some e; do_v := cur |}, w')
  | Some e, None => ({| do_resp := resp; do_err := Some e; do_v := None |}, w')
  | None, None => ({| do_resp := resp; do_err := None; do_v := None |}, w')
  | None, Some cur =>
      match unmarshal (TSlice MergeRequestDependency) body (slice_value cur) with
      | Ok x => ({| do_resp := resp; do_err := None; do_v := value_slice x |}, w')
      | Err e => ({| do_resp := resp; do_err := Some e; do_v := cur |}, w')
      end
  end.

End Decoding.

(** A value of dynamic type, as far as identifier normalization tells
    values apart: an [int], a [string], or a value of another type. *)
Inductive dynamic : Type :=
| DInt (n : Z)
| DString (s : string)
| DOther (type_name : string).

(** Modelled from the spec: identifier normalization, [parseID],
    declared in another file of the client: "accepts a numeric or
    string identifier, returns a path-safe string or an error on
    invalid input".  A number is written in decimal, a string is taken
    as it is, anything else is an error. *)
Definition parseID_model (id : dynamic) : result string :=
  match id with
  | DInt n => Ok (itoa n)
  | DString s => Ok s
  | DOther type_name =>
      Err (errorString ("invalid ID type " ++ type_name
                          ++ ", the ID must be an int or a string"))
  end.

Definition hex_digit (n : nat) : ascii :=
  match get n "0123456789ABCDEF" with
  | Some c => c
  | None => "0"%char
  end.

(** The bytes a path segment keeps as they are: letters, digits and
    [- _ ~ $ & + : = @]. *)
Definition path_safe (c : ascii) : bool :=
  let n := nat_of_ascii c in
  ((48 <=? n) && (n <=? 57) || (65 <=? n) && (n <=? 90)
   || (97 <=? n) && (n <=? 122)
   || existsb (Nat.eqb n) [45; 95; 126; 36; 38; 43; 58; 61; 64])%nat.

(** Modelled from the spec: path-segment escaping, [PathEscape],
    declared in another file of the client: "percent-encodes a path
    component".  Every byte that is not [path_safe] (the slash and the
    dot with them) becomes [%XX], in upper-case hexadecimal. *)
Fixpoint PathEscape_model (s : string) : string :=
  match s with
  | EmptyString => EmptyString
  | String c s' =>
      if path_safe c then String c (PathEscape_model s')
      else
        let n := nat_of_ascii c in
        String "%" (String (hex_digit (n / 16)) (String (hex_digit (n mod 16))
                                                   (PathEscape_model s')))
  end.

Definition model_identifiers : Identifiers :=
  {| any := dynamic; parseID := parseID_model; PathEscape := PathEscape_model |}.

(** ** A test double

    The instances at which the theorems below are exercised: external
    types that keep their payload undecoded, and a client that answers
    from a script and counts the requests it sends. *)

Definition raw_external : External :=
  {| ext := json;
     zeroExt := fun _ => JNull;
     unmarshalExt := fun _ j cur => match j with
                                    | JNull => Ok cur
                                    | _ => Ok j
                                    end;
     marshalExt := fun _ x => x;
     emptyExt := fun _ _ => false |}.

Definition fake_types : ClientTypes :=
  {| Request := string * string; Response := Z; RequestOptionFunc := unit |}.

Record script : Type :=
  { build_error : option error;
    status : Z;
    transport_error : option error;
    body : json }.

Definition fake_NewRequest (s : script) (method u : string)
    (opt : option CreateMergeRequestDependencyOptions) (options : list unit)
    (w : nat) : result (string * string) * nat :=
  match build_error s with
  | Some e => (Err e, w)
  | None => (Ok (method, u), w)
  end.

Definition fake_roundTrip (s : script) (req : string * string) (w : nat)
  : option Z * option error * json * nat :=
  (Some (status s), transport_error s, body s, S w).

Definition fake_client (s : script) : @Client raw_external fake_types nat :=
  @Build_Client raw_external fake_types nat
    (fake_NewRequest s)
    (@Do_decoding raw_external fake_types nat (fake_roundTrip s)).

(** Scripts: every call succeeds and the server sends [b]; request
    construction fails; the transport fails with status 500. *)
Definition script_ok (b : json) : script :=
  {| build_error := None; status := 200; transport_error := None; body := b |}.

Definition script_build_error : script :=
  {| build_error := Some (errorString "parse: invalid URL");
     status := 0; transport_error := None; body := JNull |}.

Definition script_transport_error : script :=
  {| build_error := None; status := 500;
     transport_error := Some (errorString "500 Internal Server Error");
     body := JNull |}.

(** A canned response of the list endpoint: two dependencies with
    distinct identifiers and distinct blocking titles. *)
Definition fixture : json :=
  JArr
    [ JObj [ ("id", JNum 1);
             ("blocking_merge_request",
              JObj [ ("id", JNum 10); ("iid", JNum 3);
                     ("title", JStr "first"); ("draft", JBool true);
                     ("author", JObj [("username", JStr "ann")]) ]);
             ("project_id", JNum 7) ];
      JObj [ ("id", JNum 2);
             ("blocking_merge_request",
              JObj [ ("id", JNum 11); ("iid", JNum 4);
                     ("title", JStr "second") ]);
             ("project_id", JNum 7) ] ].

(** The fields of a decoded dependency that the fixture is read by. *)
Definition dependency_id {E : External} (v : value) : option value := sel "ID" v.

Definition blocking_title {E : External} (v : value) : option value :=
  match sel "BlockingMergeRequest" v with
  | Some b => sel "Title" b
  | None => None
  end.

(** The methods over the test double, with the modelled helpers. *)
Definition Create' :=
  @CreateMergeRequestDependency raw_external fake_types model_identifiers.
Definition Delete' :=
  @DeleteMergeRequestDependency raw_external fake_types model_identifiers.
Definition Get' :=
  @GetMergeRequestDependencies raw_external fake_types model_identifiers.

(** ** Keys, scalars and well-typed values *)

Unset Implicit Arguments.

(** The tags of a struct type, folded: the keys the struct answers to,
    up to case. *)
Definition folded_tags (fields : list field) : list string :=
  map (fun d => foldName (tag_name (field_json d))) fields.

(** A type declared outside this file. *)
Definition is_named (t : gotype) : bool :=
  match t with
  | TNamed _ => true
  | _ => false
  end.

(** The field tables of the three structs the file declares. *)
Definition declared_structs : list (list field) :=
  [MergeRequestDependency_fields; BlockingMergeRequest_fields;
   CreateMergeRequestDependencyOptions_fields].

Section WellTyped.
Context {E : External}.

(** The Go value a JSON scalar stands for in a field of type [int],
    [string] or [bool]: what decoding stores, whatever the field held. *)
Definition scalar_value (t : gotype) (j : json) : option value :=
  match t, j with
  | TInt, JNum n => if in_int n then Some (VInt n) else None
  | TString, JStr s => Some (VString s)
  | TBool, JBool b => Some (VBool b)
  | _, _ => None
  end.

(** [typed t v]: [v] is a value of the Go type [t]: an [int] within 64
    bits, a pointer or slice that is nil or holds values of the element
    type, a struct value with the declared fields, in order, each of
    its declared type. *)
Fixpoint typed (t : gotype) (v : value) {struct t} : bool :=
  match t, v with
  | TInt, VInt n => in_int n
  | TString, VString _ => true
  | TBool, VBool _ => true
  | TNamed _, VExt _ => true
  | TPtr _, VNil => true
  | TPtr elem, VPtr x => typed elem x
  | TSlice _, VNil => true
  | TSlice elem, VSlice xs => forallb (typed elem) xs
  | TStruct fields, VStruct fs =>
      (fix all (ds : list field) (fs : list (string * value)) : bool :=
         match ds, fs with
         | [], [] => true
         | Field name ty _ _ :: ds', (n, x) :: fs' =>
             String.eqb name n && typed ty x && all ds' fs'
         | _, _ => false
         end) fields fs
  | _, _ => false
  end.

(** The fields of a struct value against the declared fields, one by
    one ([typed_struct] below). *)
Fixpoint fields_typed (ds : list field) (fs : list (string * value)) : bool :=
  match ds, fs with
  | [], [] => true
  | d :: ds', (n, x) :: fs' =>
      String.eqb (field_name d) n && typed (field_type d) x
      && fields_typed ds' fs'
  | _, _ => false
  end.

(** No string occurs twice. *)
Fixpoint distinct (l : list string) : bool :=
  match l with
  | [] => true
  | x :: l' => negb (existsb (String.eqb x) l') && distinct l'
  end.

(** The struct types of [t] have fields of distinct names, as the Go
    compiler demands. *)
Fixpoint distinct_names (t : gotype) : bool :=
  match t with
  | TPtr elem | TSlice elem => distinct_names elem
  | TStruct fields =>
      distinct (map field_name fields)
      && (fix all (ds : list field) : bool :=
            match ds with
            | [] => true
            | Field _ ty _ _ :: ds' => distinct_names ty && all ds'
            end) fields
  | _ => true
  end.

End WellTyped.


(** * Properties *)

Unset Implicit Arguments.

(** ** The definitions on small inputs *)

Example itoa_examples :
  itoa 0 = "0" /\ itoa 1205 = "1205" /\ itoa (-12) = "-12".
Proof. repeat split. Qed.

Example segments_example :
  segments "projects/a%2Fb/merge_requests/5/blocks"
  = ["projects"; "a%2Fb"; "merge_requests"; "5"; "blocks"].
Proof. reflexivity. Qed.

Example occurrences_example :
  occurrences "ab" "abcab" = 2%nat /\ occurrences "x" "abcab" = 0%nat.
Proof. split; reflexivity. Qed.

Example foldName_examples :
  foldName "Merged_By" = "MERGED_BY" /\ foldName "merged_by" = "MERGED_BY".
Proof. split; reflexivity. Qed.

Example PathEscape_model_example :
  PathEscape_model "group/my.project" = "group%2Fmy%2Eproject".
Proof. reflexivity. Qed.

Example unmarshal_int_examples :
  @unmarshal raw_external TInt (JNum 5) (VInt 0) = Ok (VInt 5)
  /\ @unmarshal raw_external TInt JNull (VInt 3) = Ok (VInt 3)
  /\ @unmarshal raw_external TInt (JStr "5") (VInt 0)
     = Err (type_error "string" "int")
  /\ @unmarshal raw_external TInt (JReal "1.5") (VInt 0)
     = Err (type_error "number" "int")
  /\ @unmarshal raw_external TInt (JNum (2 ^ 63)) (VInt 0)
     = Err (type_error "number" "int").
Proof. repeat split. Qed.

Example unmarshal_pointer_examples :
  @unmarshal raw_external (TPtr TBool) (JBool false) VNil
  = Ok (VPtr (VBool false))
  /\ @unmarshal raw_external (TPtr TBool) JNull (VPtr (VBool true)) = Ok VNil
  /\ @unmarshal raw_external (TSlice TInt) (JArr []) VNil = Ok (VSlice [])
  /\ @unmarshal raw_external (TSlice TInt) (JArr [JNum 1; JNull]) VNil
     = Ok (VSlice [VInt 1; VInt 0]).
Proof. repeat split. Qed.

(** Members are decoded in payload order; a key matches a tag without
    regard to case; an unknown key is skipped. *)
Example unmarshal_object_examples :
  (exists v,
      @unmarshal raw_external MergeRequestDependency
        (JObj [("id", JNum 5); ("ID", JNull); ("Project_Id", JNum 7);
               ("unknown", JBool true)])
        (zero MergeRequestDependency) = Ok v
      /\ sel "ID" v = Some (VInt 5) /\ sel "ProjectID" v = Some (VInt 7))
  /\ (exists v,
        @unmarshal raw_external BlockingMergeRequest
          (JObj [("milestone", JStr "m"); ("milestone", JNull)])
          (zero BlockingMergeRequest) = Ok v
        /\ sel "Milestone" v = Some VNil).
Proof. split; eexists; repeat split. Qed.

(** ** Paths *)

Lemma append_assoc (a b d : string) : (a ++ b) ++ d = a ++ b ++ d.
Proof. induction a as [|ch a IH]; simpl; [reflexivity|now rewrite IH]. Qed.

Lemma no_slash_app (a b : string) :
  no_slash (a ++ b) = no_slash a && no_slash b.
Proof.
  induction a as [|ch a IH]; simpl; [reflexivity|].
  rewrite IH. apply andb_assoc.
Qed.

Lemma no_slash_uint (d : Decimal.uint) :
  no_slash (NilEmpty.string_of_uint d) = true.
Proof. induction d; simpl; auto. Qed.

Lemma no_slash_itoa (n : Z) : no_slash (itoa n) = true.
Proof.
  unfold itoa, NilZero.string_of_int, NilZero.string_of_uint.
  destruct (Z.to_int n) as [d|d]; destruct d; simpl;
    auto using no_slash_uint.
Qed.

Lemma segments_no_slash (a : string) :
  no_slash a = true -> segments a = [a].
Proof.
  induction a as [|ch a IH]; simpl; [reflexivity|].
  destruct (Ascii.eqb ch "/"); simpl; [discriminate|].
  intros H. rewrite (IH H). reflexivity.
Qed.

Lemma segments_app (a b : string) :
  no_slash a = true -> segments (a ++ String "/" b) = a :: segments b.
Proof.
  induction a as [|ch a IH]; simpl; [reflexivity|].
  destruct (Ascii.eqb ch "/"); simpl; [discriminate|].
  intros H. rewrite (IH H). reflexivity.
Qed.

Lemma segments_blocks_tail (mergeRequest : Z) :
  segments ("merge_requests/" ++ itoa mergeRequest ++ "/blocks")
  = ["merge_requests"; itoa mergeRequest; "blocks"].
Proof.
  change (segments ("merge_requests"
                      ++ String "/" (itoa mergeRequest ++ String "/" "blocks"))
          = ["merge_requests"; itoa mergeRequest; "blocks"]).
  rewrite (segments_app "merge_requests" _ eq_refl).
  rewrite (segments_app _ _ (no_slash_itoa mergeRequest)).
  reflexivity.
Qed.

Lemma segments_block_tail (mergeRequest blockingMergeRequest : Z) :
  segments ("merge_requests/" ++ itoa mergeRequest
              ++ "/blocks/" ++ itoa blockingMergeRequest)
  = ["merge_requests"; itoa mergeRequest; "blocks"; itoa blockingMergeRequest].
Proof.
  change (segments
            ("merge_requests"
               ++ String "/"
                    (itoa mergeRequest
                       ++ String "/"
                            ("blocks" ++ String "/" (itoa blockingMergeRequest))))
          = ["merge_requests"; itoa mergeRequest; "blocks";
             itoa blockingMergeRequest]).
  rewrite (segments_app "merge_requests" _ eq_refl).
  rewrite (segments_app _ _ (no_slash_itoa mergeRequest)).
  rewrite (segments_app "blocks" _ eq_refl).
  rewrite (segments_no_slash _ (no_slash_itoa blockingMergeRequest)).
  reflexivity.
Qed.

Lemma hex_digit_no_slash (n : nat) : Ascii.eqb (hex_digit n) "/" = false.
Proof.
  unfold hex_digit.
  do 16 (destruct n as [|n]; [reflexivity|]).
  reflexivity.
Qed.

Lemma path_safe_no_slash (ch : ascii) :
  path_safe ch = true -> Ascii.eqb ch "/" = false.
Proof.
  destruct (Ascii.eqb_spec ch "/") as [->|]; [discriminate|reflexivity].
Qed.

(** The model of [PathEscape] leaves no slash in a segment. *)
Lemma PathEscape_model_no_slash (s : string) :
  no_slash (PathEscape_model s) = true.
Proof.
  induction s as [|ch s IH]; simpl; [reflexivity|].
  destruct (path_safe ch) eqn:Hs; simpl.
  - rewrite (path_safe_no_slash _ Hs), IH. reflexivity.
  - rewrite !hex_digit_no_slash, IH. reflexivity.
Qed.

(** ** The three methods *)

Section Methods.
Context {E : External} {T : ClientTypes} {I : Identifiers}.
Variable World : Type.
Variable c : Client World.

(** Unfold a method up to its next call on the client. *)
Ltac step_method :=
  unfold CreateMergeRequestDependency, DeleteMergeRequestDependency,
    GetMergeRequestDependencies, CreateMergeRequestDependency_direct,
    DeleteMergeRequestDependency_direct;
  cbn [run handle log_entry call bind ret Monad_prog prog_bind].

(** Name the answer of the client to the call the run is stopped at. *)
Ltac answer_of f x w :=
  match goal with
  | |- context [f c ?a1 ?a2 ?a3 ?a4 ?a5] =>
      destruct (f c a1 a2 a3 a4 a5) as [x w] eqn:?
  | |- context [f c ?a1 ?a2 ?a3] =>
      destruct (f c a1 a2 a3) as [x w] eqn:?
  end;
  cbn [run handle log_entry call bind ret Monad_prog prog_bind].

(** C1. When [parseID] rejects the identifier, each of the three
    methods returns that error with a nil response (and a nil list for
    [GetMergeRequestDependencies]), the log of calls is empty (neither
    [NewRequest] nor [Do] was invoked) and the client is left as it
    was. *)
Theorem invalid_identifier_makes_no_call
    (pid : any) (err : error) (mergeRequest blockingMergeRequest : Z)
    (opts : CreateMergeRequestDependencyOptions)
    (options : list RequestOptionFunc) (w : World) :
  parseID pid = Err err ->
  run c (CreateMergeRequestDependency pid mergeRequest opts options) w
    = ((None, Some err), w, [])
  /\ run c (DeleteMergeRequestDependency pid mergeRequest blockingMergeRequest
              options) w
     = ((None, Some err), w, [])
  /\ run c (GetMergeRequestDependencies pid mergeRequest options) w
     = ((None, None, Some err), w, []).
Proof.
  intros Hpid.
  unfold CreateMergeRequestDependency, DeleteMergeRequestDependency,
    GetMergeRequestDependencies.
  rewrite Hpid. repeat split.
Qed.

(** C10. When the identifier is accepted and [NewRequest] fails, each
    method returns the error of [NewRequest] with a nil response (and a
    nil list for [GetMergeRequestDependencies]); the log holds the one
    call of [NewRequest] and no call of [Do]. *)
Theorem request_construction_error_makes_no_Do
    (pid : any) (project : string) (mergeRequest blockingMergeRequest : Z)
    (opts : CreateMergeRequestDependencyOptions)
    (options : list RequestOptionFunc) (w w' : World) (err : error) :
  parseID pid = Ok project ->
  (client_NewRequest c http.MethodPost
     (blocks_path (PathEscape project) mergeRequest) (Some opts) options w
   = (Err err, w') ->
   run c (CreateMergeRequestDependency pid mergeRequest opts options) w
   = ((None, Some err), w',
      [CallNewRequest http.MethodPost
         (blocks_path (PathEscape project) mergeRequest) (Some opts) options
         (Err err)]))
  /\ (client_NewRequest c http.MethodDelete
        (block_path (PathEscape project) mergeRequest blockingMergeRequest)
        None options w
      = (Err err, w') ->
      run c (DeleteMergeRequestDependency pid mergeRequest blockingMergeRequest
               options) w
      = ((None, Some err), w',
         [CallNewRequest http.MethodDelete
            (block_path (PathEscape project) mergeRequest blockingMergeRequest)
            None options (Err err)]))
  /\ (client_NewRequest c http.MethodGet
        (blocks_path (PathEscape project) mergeRequest) None options w
      = (Err err, w') ->
      run c (GetMergeRequestDependencies pid mergeRequest options) w
      = ((None, None, Some err), w',
         [CallNewRequest http.MethodGet
            (blocks_path (PathEscape project) mergeRequest) None options
            (Err err)])).
Proof.
  intros Hpid.
  repeat split; intros Hnew; step_method; rewrite Hpid; step_method;
    rewrite Hnew; reflexivity.
Qed.

(** C7. The final conditional of [CreateMergeRequestDependency] and of
    [DeleteMergeRequestDependency] changes nothing: against every
    client and from every state, each method returns the same pair,
    leaves the same state and makes the same calls as the method that
    hands back the pair of its last call as it is. *)
Theorem final_conditional_is_transparent
    (pid : any) (mergeRequest blockingMergeRequest : Z)
    (opts : CreateMergeRequestDependencyOptions)
    (options : list RequestOptionFunc) (w : World) :
  run c (CreateMergeRequestDependency pid mergeRequest opts options) w
    = run c (CreateMergeRequestDependency_direct pid mergeRequest opts options) w
  /\ run c (DeleteMergeRequestDependency pid mergeRequest blockingMergeRequest
              options) w
     = run c (DeleteMergeRequestDependency_direct pid mergeRequest
                blockingMergeRequest options) w.
Proof.
  split; step_method; destruct (parseID pid) as [project|e];
    try reflexivity; step_method;
    answer_of (@client_NewRequest E T World) r w1;
    destruct r as [req|e]; try reflexivity; step_method;
    answer_of (@client_Do E T World) d w2;
    destruct (do_err d); reflexivity.
Qed.

(** Every call of [Do] in the log of a method is the one call the
    method made, and the method returns what it answered. *)
Ltac only_Do_call mrd :=
  let r0 := fresh "built" in
  let w1 := fresh "w_built" in
  let d0 := fresh "answer" in
  let w2 := fresh "w_sent" in
  step_method; destruct (parseID _) as [project|e]; step_method;
  [ answer_of (@client_NewRequest E T World) r0 w1;
    destruct r0 as [req0|e]; step_method;
    [ unfold slice;
      answer_of (@client_Do E T World) d0 w2;
      intros Hrun req v d Hin;
      assert (Hd : CallDo req0 mrd d0 = CallDo req v d)
        by (destruct (do_err d0); inversion Hrun; subst;
            destruct Hin as [Hin|[Hin|[]]];
            first [discriminate Hin|exact Hin]);
      inversion Hd; subst;
      destruct (do_err d); inversion Hrun; subst; split; reflexivity
    | intros Hrun req v d Hin; inversion Hrun; subst;
      destruct Hin as [Hin|[]]; discriminate Hin ]
  | intros Hrun req v d Hin; inversion Hrun; subst; destruct Hin ].

Lemma Create_log (pid : any) (mergeRequest : Z)
    (opts : CreateMergeRequestDependencyOptions)
    (options : list RequestOptionFunc) (w : World) r w' log :
  run c (CreateMergeRequestDependency pid mergeRequest opts options) w
    = (r, w', log) ->
  forall req v d, In (CallDo req v d) log ->
    r = (do_resp d, do_err d) /\ filter is_Do log = [CallDo req v d].
Proof. only_Do_call (@None (option (list value))). Qed.

Lemma Delete_log (pid : any) (mergeRequest blockingMergeRequest : Z)
    (options : list RequestOptionFunc) (w : World) r w' log :
  run c (DeleteMergeRequestDependency pid mergeRequest blockingMergeRequest
           options) w
    = (r, w', log) ->
  forall req v d, In (CallDo req v d) log ->
    r = (do_resp d, do_err d) /\ filter is_Do log = [CallDo req v d].
Proof. only_Do_call (@None (option (list value))). Qed.

Lemma Get_log (pid : any) (mergeRequest : Z)
    (options : list RequestOptionFunc) (w : World) r w' log :
  run c (GetMergeRequestDependencies pid mergeRequest options) w
    = (r, w', log) ->
  forall req v d, In (CallDo req v d) log ->
    r = (match do_err d with
         | Some _ => None
         | None => do_v d
         end, do_resp d, do_err d)
    /\ filter is_Do log = [CallDo req v d].
Proof. only_Do_call (Some (@None (list value))). Qed.

(** C6. Whenever a call of [Do] made by a method answers with an
    error, the method returns exactly that error with the response of
    that call, [GetMergeRequestDependencies] returns a nil list with
    it, and the call is the only call of [Do] in the log (no retry). *)
Theorem Do_error_is_returned_as_is
    (pid : any) (mergeRequest blockingMergeRequest : Z)
    (opts : CreateMergeRequestDependencyOptions)
    (options : list RequestOptionFunc) (w : World)
    (req : Request) (v : option (slice value)) (d : DoReturn) (err : error) :
  do_err d = Some err ->
  (forall r w' log,
      run c (CreateMergeRequestDependency pid mergeRequest opts options) w
        = (r, w', log) ->
      In (CallDo req v d) log ->
      r = (do_resp d, Some err) /\ filter is_Do log = [CallDo req v d])
  /\ (forall r w' log,
         run c (DeleteMergeRequestDependency pid mergeRequest
                  blockingMergeRequest options) w
           = (r, w', log) ->
         In (CallDo req v d) log ->
         r = (do_resp d, Some err) /\ filter is_Do log = [CallDo req v d])
  /\ (forall r w' log,
         run c (GetMergeRequestDependencies pid mergeRequest options) w
           = (r, w', log) ->
         In (CallDo req v d) log ->
         r = (None, do_resp d, Some err)
         /\ filter is_Do log = [CallDo req v d]).
Proof.
  intros Herr. split; [|split]; intros r w' log Hrun Hin.
  - destruct (Create_log _ _ _ _ _ _ _ _ Hrun _ _ _ Hin) as [-> Hdo].
    rewrite Herr. split; [reflexivity|exact Hdo].
  - destruct (Delete_log _ _ _ _ _ _ _ _ Hrun _ _ _ Hin) as [-> Hdo].
    rewrite Herr. split; [reflexivity|exact Hdo].
  - destruct (Get_log _ _ _ _ _ _ _ Hrun _ _ _ Hin) as [-> Hdo].
    rewrite Herr. split; [reflexivity|exact Hdo].
Qed.

Lemma Create_round_trip (pid : any) (project : string) (mergeRequest : Z)
    (opts : CreateMergeRequestDependencyOptions)
    (options : list RequestOptionFunc) (w : World) :
  parseID pid = Ok project ->
  one_round_trip c http.MethodPost
    (blocks_path (PathEscape project) mergeRequest) (Some opts) options w
    (run c (CreateMergeRequestDependency pid mergeRequest opts options) w).
Proof.
  intros Hpid. unfold one_round_trip. step_method. rewrite Hpid. step_method.
  answer_of (@client_NewRequest E T World) r w1.
  exists r, w1. split; [reflexivity|].
  destruct r as [req|e]; [|reflexivity]. step_method.
  answer_of (@client_Do E T World) d w2.
  exists d, w2. split; [reflexivity|]. destruct (do_err d); reflexivity.
Qed.

Lemma Delete_round_trip (pid : any) (project : string)
    (mergeRequest blockingMergeRequest : Z)
    (options : list RequestOptionFunc) (w : World) :
  parseID pid = Ok project ->
  one_round_trip c http.MethodDelete
    (block_path (PathEscape project) mergeRequest blockingMergeRequest)
    None options w
    (run c (DeleteMergeRequestDependency pid mergeRequest blockingMergeRequest
              options) w).
Proof.
  intros Hpid. unfold one_round_trip. step_method. rewrite Hpid. step_method.
  answer_of (@client_NewRequest E T World) r w1.
  exists r, w1. split; [reflexivity|].
  destruct r as [req|e]; [|reflexivity]. step_method.
  answer_of (@client_Do E T World) d w2.
  exists d, w2. split; [reflexivity|]. destruct (do_err d); reflexivity.
Qed.

(** C3. With an accepted identifier, [DeleteMergeRequestDependency]
    makes exactly one call of [NewRequest], with the method DELETE, a
    nil body/query argument and the path
    [projects/<escaped parent>/merge_requests/<mergeRequest>/blocks/<blockingMergeRequest>],
    whose last four segments are [merge_requests], the dependent
    number, [blocks] and the blocking number; the request built is sent
    by exactly one call of [Do], and nothing else is called. *)
Theorem Delete_issues_one_DELETE
    (pid : any) (project : string) (mergeRequest blockingMergeRequest : Z)
    (options : list RequestOptionFunc) (w : World) :
  parseID pid = Ok project ->
  exists u tail,
    one_round_trip c http.MethodDelete u None options w
      (run c (DeleteMergeRequestDependency pid mergeRequest
                blockingMergeRequest options) w)
    /\ u = "projects/" ++ PathEscape project ++ "/" ++ tail
    /\ segments tail
       = ["merge_requests"; itoa mergeRequest; "blocks";
          itoa blockingMergeRequest].
Proof.
  intros Hpid.
  exists (block_path (PathEscape project) mergeRequest blockingMergeRequest),
    ("merge_requests/" ++ itoa mergeRequest
       ++ "/blocks/" ++ itoa blockingMergeRequest).
  split; [apply Delete_round_trip; assumption|].
  split; [reflexivity|apply segments_block_tail].
Qed.

Lemma round_trip_requests (method u : string)
    (opt : option CreateMergeRequestDependencyOptions)
    (options : list RequestOptionFunc) (w : World) out :
  one_round_trip c method u opt options w out ->
  request_paths (snd out) = [u] /\ request_opts (snd out) = [opt].
Proof.
  intros (r & w1 & _ & Hout). destruct r as [req|e].
  - destruct Hout as (d & w2 & _ & ->). split; reflexivity.
  - subst out. split; reflexivity.
Qed.

Lemma Get_requests (pid : any) (project : string) (mergeRequest : Z)
    (options : list RequestOptionFunc) (w : World) :
  parseID pid = Ok project ->
  request_paths (snd (run c (GetMergeRequestDependencies pid mergeRequest
                               options) w))
  = [blocks_path (PathEscape project) mergeRequest].
Proof.
  intros Hpid. step_method. rewrite Hpid. step_method.
  answer_of (@client_NewRequest E T World) r w1.
  destruct r as [req|e]; [|reflexivity]. step_method.
  answer_of (@client_Do E T World) d w2.
  destruct (do_err d); reflexivity.
Qed.

Lemma options_body_nonzero (opts : CreateMergeRequestDependencyOptions) :
  BlockingMergeRequestID opts <> 0 ->
  options_body opts
  = JObj [("blocking_merge_request_id", JNum (BlockingMergeRequestID opts))].
Proof.
  intros Hid. unfold options_body, options_value. simpl.
  destruct (Z.eqb_spec (BlockingMergeRequestID opts) 0); [contradiction|].
  reflexivity.
Qed.

Lemma options_query_nonzero (opts : CreateMergeRequestDependencyOptions) :
  BlockingMergeRequestID opts <> 0 ->
  options_query opts
  = Some [("blocking_merge_request_id", itoa (BlockingMergeRequestID opts))].
Proof.
  intros Hid. unfold options_query. simpl.
  destruct (Z.eqb_spec (BlockingMergeRequestID opts) 0); [contradiction|].
  reflexivity.
Qed.

(** C2, amended.  With an accepted identifier and a blocking merge
    request identifier other than zero, [CreateMergeRequestDependency]
    makes exactly one call of [NewRequest], with the method POST, the
    path [projects/<escaped parent>/merge_requests/<mergeRequest>/blocks]
    and the options; the request built is sent by exactly one call of
    [Do]; and both serializations of the options, the JSON body and the
    query, consist of the field [blocking_merge_request_id] with the
    identifier supplied. *)
Theorem Create_issues_one_POST
    (pid : any) (project : string) (mergeRequest : Z)
    (opts : CreateMergeRequestDependencyOptions)
    (options : list RequestOptionFunc) (w : World) :
  parseID pid = Ok project ->
  BlockingMergeRequestID opts <> 0 ->
  exists u tail,
    one_round_trip c http.MethodPost u (Some opts) options w
      (run c (CreateMergeRequestDependency pid mergeRequest opts options) w)
    /\ u = "projects/" ++ PathEscape project ++ "/" ++ tail
    /\ segments tail = ["merge_requests"; itoa mergeRequest; "blocks"]
    /\ options_body opts
       = JObj [("blocking_merge_request_id",
                JNum (BlockingMergeRequestID opts))]
    /\ options_query opts
       = Some [("blocking_merge_request_id",
                itoa (BlockingMergeRequestID opts))].
Proof.
  intros Hpid Hid.
  exists (blocks_path (PathEscape project) mergeRequest),
    ("merge_requests/" ++ itoa mergeRequest ++ "/blocks").
  split; [apply Create_round_trip; assumption|].
  split; [reflexivity|].
  split; [apply segments_blocks_tail|].
  split; [apply options_body_nonzero|apply options_query_nonzero]; assumption.
Qed.

(** C9. When [BlockingMergeRequestID] is zero, the options that
    [CreateMergeRequestDependency] hands to [NewRequest] serialize to
    an empty JSON object and to an empty query: the field
    [blocking_merge_request_id] is left out of both. *)
Theorem zero_identifier_is_omitted
    (pid : any) (mergeRequest : Z)
    (opts : CreateMergeRequestDependencyOptions)
    (options : list RequestOptionFunc) (w : World) :
  BlockingMergeRequestID opts = 0 ->
  Forall (fun opt => opt = Some opts)
    (request_opts
       (snd (run c (CreateMergeRequestDependency pid mergeRequest opts
                      options) w)))
  /\ options_body opts = JObj []
  /\ options_query opts = Some []
  /\ has_key "blocking_merge_request_id" (members_of (options_body opts))
     = false.
Proof.
  intros Hid. split.
  - destruct (parseID pid) as [project|e] eqn:Hpid.
    + destruct (round_trip_requests _ _ _ _ _ _
                  (Create_round_trip pid project mergeRequest opts options w
                     Hpid))
        as [_ ->].
      constructor; [reflexivity|constructor].
    + unfold CreateMergeRequestDependency. rewrite Hpid. constructor.
  - destruct opts as [id]. simpl in Hid. subst id. repeat split.
Qed.

(** C5, amended.  With an accepted identifier, each method builds one
    request, and its path is [projects/], the escaped identifier, a
    slash, and a tail made of the merge request number(s) alone: the
    template inserts the escaped identifier once, and when it holds no
    slash it is the segment that follows [projects].  (Its text may
    occur again in the tail, as the number [1] does for project 1 and
    merge request 1.) *)
Theorem escaped_identifier_follows_projects
    (pid : any) (project : string) (mergeRequest blockingMergeRequest : Z)
    (opts : CreateMergeRequestDependencyOptions)
    (options : list RequestOptionFunc) (w : World) :
  parseID pid = Ok project ->
  let esc := PathEscape project in
  let blocks := "merge_requests/" ++ itoa mergeRequest ++ "/blocks" in
  let block := blocks ++ "/" ++ itoa blockingMergeRequest in
  request_paths
    (snd (run c (CreateMergeRequestDependency pid mergeRequest opts options) w))
  = ["projects/" ++ esc ++ "/" ++ blocks]
  /\ request_paths
       (snd (run c (DeleteMergeRequestDependency pid mergeRequest
                      blockingMergeRequest options) w))
     = ["projects/" ++ esc ++ "/" ++ block]
  /\ request_paths
       (snd (run c (GetMergeRequestDependencies pid mergeRequest options) w))
     = ["projects/" ++ esc ++ "/" ++ blocks]
  /\ (no_slash esc = true ->
      segments ("projects/" ++ esc ++ "/" ++ blocks)
      = ["projects"; esc; "merge_requests"; itoa mergeRequest; "blocks"]
      /\ segments ("projects/" ++ esc ++ "/" ++ block)
         = ["projects"; esc; "merge_requests"; itoa mergeRequest; "blocks";
            itoa blockingMergeRequest]).
Proof.
  intros Hpid esc blocks block.
  assert (Hblock : block = "merge_requests/" ++ itoa mergeRequest
                             ++ "/blocks/" ++ itoa blockingMergeRequest).
  { unfold block, blocks. now rewrite !append_assoc. }
  split; [|split; [|split]].
  - now destruct (round_trip_requests _ _ _ _ _ _
                    (Create_round_trip pid project mergeRequest opts options
                       w Hpid)).
  - destruct (round_trip_requests _ _ _ _ _ _
                (Delete_round_trip pid project mergeRequest
                   blockingMergeRequest options w Hpid)) as [-> _].
    unfold block_path. fold esc. now rewrite Hblock.
  - now rewrite (Get_requests _ _ _ _ _ Hpid).
  - intros Hesc.
    change (segments ("projects" ++ String "/" (esc ++ String "/" blocks))
            = ["projects"; esc; "merge_requests"; itoa mergeRequest; "blocks"]
            /\ segments ("projects" ++ String "/" (esc ++ String "/" block))
               = ["projects"; esc; "merge_requests"; itoa mergeRequest;
                  "blocks"; itoa blockingMergeRequest]).
    rewrite !(segments_app "projects" _ eq_refl), !(segments_app _ _ Hesc).
    unfold blocks at 1. rewrite segments_blocks_tail.
    rewrite Hblock, segments_block_tail. split; reflexivity.
Qed.

Lemma Get_listing (pid : any) (project : string) (mergeRequest : Z)
    (options : list RequestOptionFunc) (w : World) :
  parseID pid = Ok project ->
  one_listing c (blocks_path (PathEscape project) mergeRequest) options w
    (run c (GetMergeRequestDependencies pid mergeRequest options) w).
Proof.
  intros Hpid. unfold one_listing. step_method. rewrite Hpid. step_method.
  answer_of (@client_NewRequest E T World) r w1.
  exists r, w1. split; [reflexivity|].
  destruct r as [req|e]; [|reflexivity]. step_method. unfold slice.
  answer_of (@client_Do E T World) d w2.
  exists d, w2. split; [reflexivity|]. destruct (do_err d); reflexivity.
Qed.

End Methods.

(** ** The decoder *)

Section Decoder.
Context {E : External}.

Lemma unmarshal_struct (fields : list field) (ms : list (string * json))
    (cur : value) :
  unmarshal (TStruct fields) (JObj ms) cur
  = (fs <- decode_object fields ms
             (match cur with
              | VStruct fs => fs
              | _ => match zero (TStruct fields) with
                     | VStruct fs => fs
                     | _ => []
                     end
              end) ;;
     ret (VStruct fs)).
Proof.
  cbn [unmarshal].
  set (init := match cur with VStruct fs => fs | _ => _ end).
  clearbody init. f_equal.
  revert init. induction ms as [|[k j] ms IH]; intros init; [reflexivity|].
  cbn [decode_object]. unfold decode_member.
  assert (Hinner : forall ds,
             (fix into (ds : list field) {struct ds}
                : result (list (string * value)) :=
                match ds with
                | [] => Ok init
                | Field name ty jt _ :: ds' =>
                    if key_matcher fields k (tag_name jt)
                    then
                      x <- unmarshal ty j
                             (match get_field name init with
                              | Some y => y
                              | None => zero ty
                              end) ;;
                      ret (set_field name x init)
                    else into ds'
                end) ds
             = match select_field (key_matcher fields k) ds with
               | None => Ok init
               | Some d =>
                   x <- unmarshal (field_type d) j
                          (match get_field (field_name d) init with
                           | Some y => y
                           | None => zero (field_type d)
                           end) ;;
                   ret (set_field (field_name d) x init)
               end).
  { induction ds as [|[name ty jt ut] ds IHds]; [reflexivity|].
    cbn [select_field field_json].
    destruct (key_matcher fields k (tag_name jt)); [reflexivity|].
    exact IHds. }
  rewrite Hinner.
  destruct (match select_field (key_matcher fields k) fields with
            | None => _ | Some d => _ end) as [fs'|e]; [|reflexivity].
  cbn [bind Monad_result]. apply IH.
Qed.

Lemma unmarshal_slice (elem : gotype) (items : list json) (cur : value) :
  unmarshal (TSlice elem) (JArr items) cur
  = (xs <- decode_elems elem items (match cur with
                                    | VSlice old => old
                                    | _ => []
                                    end) ;;
     ret (VSlice xs)).
Proof.
  cbn [unmarshal].
  set (old := match cur with VSlice old => old | _ => [] end).
  clearbody old. f_equal.
  revert old. induction items as [|i items IH]; intros old; [reflexivity|].
  cbn [decode_elems].
  destruct (unmarshal elem i (hd (zero elem) old)) as [x|e]; [|reflexivity].
  cbn [bind Monad_result]. now rewrite IH.
Qed.

(** *** Fields of a struct value *)

Lemma get_set_same (name : string) (x : value) (fs : list (string * value)) :
  In name (value_names fs) -> get_field name (set_field name x fs) = Some x.
Proof.
  induction fs as [|[n y] fs IH]; simpl; [intros []|].
  destruct (String.eqb_spec n name) as [->|Hn]; simpl.
  - now rewrite String.eqb_refl.
  - intros [Heq|Hin]; [contradiction|].
    destruct (String.eqb_spec n name); [contradiction|]. auto.
Qed.

Lemma get_set_other (name name' : string) (x : value)
    (fs : list (string * value)) :
  name <> name' -> get_field name (set_field name' x fs) = get_field name fs.
Proof.
  intros Hne. induction fs as [|[n y] fs IH]; simpl; [reflexivity|].
  destruct (String.eqb_spec n name') as [->|Hn]; simpl.
  - destruct (String.eqb_spec name' name); [congruence|reflexivity].
  - destruct (String.eqb_spec n name); [reflexivity|exact IH].
Qed.

Lemma names_set (name : string) (x : value) (fs : list (string * value)) :
  value_names (set_field name x fs) = value_names fs.
Proof.
  induction fs as [|[n y] fs IH]; simpl; [reflexivity|].
  destruct (String.eqb n name); simpl; [reflexivity|now rewrite IH].
Qed.

(** *** One member *)

Lemma decode_member_names fields k j fs fs' :
  decode_member fields k j fs = Ok fs' -> value_names fs' = value_names fs.
Proof.
  unfold decode_member.
  destruct (select_field (key_matcher fields k) fields) as [d|].
  - destruct (unmarshal _ _ _) as [x|e]; cbn [bind ret Monad_result];
      [|discriminate].
    intros [= <-]. apply names_set.
  - now intros [= <-].
Qed.

Lemma decode_member_other fields k j fs fs' (name : string) :
  selected_name fields k <> Some name ->
  decode_member fields k j fs = Ok fs' ->
  get_field name fs' = get_field name fs.
Proof.
  unfold selected_name, decode_member.
  destruct (select_field (key_matcher fields k) fields) as [d|];
    cbn [option_map].
  - intros Hne. destruct (unmarshal _ _ _) as [x|e];
      cbn [bind ret Monad_result]; [|discriminate].
    intros [= <-]. apply get_set_other. congruence.
  - now intros _ [= <-].
Qed.

Lemma decode_member_hit fields k j fs fs' (d : field) :
  select_field (key_matcher fields k) fields = Some d ->
  In (field_name d) (value_names fs) ->
  decode_member fields k j fs = Ok fs' ->
  exists x,
    unmarshal (field_type d) j
      (match get_field (field_name d) fs with
       | Some y => y
       | None => zero (field_type d)
       end) = Ok x
    /\ get_field (field_name d) fs' = Some x.
Proof.
  unfold decode_member. intros -> Hin.
  destruct (unmarshal _ _ _) as [x|e]; cbn [bind ret Monad_result];
    [|discriminate].
  intros [= <-]. exists x. split; [reflexivity|].
  now apply get_set_same.
Qed.

(** *** The members of an object *)

Lemma decode_object_app fields ms1 ms2 fs :
  decode_object fields (ms1 ++ ms2) fs
  = (fs1 <- decode_object fields ms1 fs ;; decode_object fields ms2 fs1).
Proof.
  revert fs. induction ms1 as [|[k j] ms1 IH]; intros fs; [reflexivity|].
  cbn [app decode_object].
  destruct (decode_member fields k j fs) as [fs'|e]; [|reflexivity].
  cbn [bind Monad_result]. apply IH.
Qed.

Lemma decode_object_names fields ms fs fs' :
  decode_object fields ms fs = Ok fs' -> value_names fs' = value_names fs.
Proof.
  revert fs. induction ms as [|[k j] ms IH]; intros fs; cbn [decode_object].
  - now intros [= <-].
  - destruct (decode_member fields k j fs) as [fs1|e] eqn:Hm;
      cbn [bind Monad_result]; [|discriminate].
    intros Hobj. rewrite (IH _ Hobj). eapply decode_member_names; eassumption.
Qed.

(** A field that no member selects keeps its value. *)
Lemma decode_object_absent fields ms fs fs' (name : string) :
  (forall k j, In (k, j) ms -> selected_name fields k <> Some name) ->
  decode_object fields ms fs = Ok fs' ->
  get_field name fs' = get_field name fs.
Proof.
  revert fs. induction ms as [|[k j] ms IH]; intros fs Habs;
    cbn [decode_object].
  - now intros [= <-].
  - destruct (decode_member fields k j fs) as [fs1|e] eqn:Hm;
      cbn [bind Monad_result]; [|discriminate].
    intros Hobj. rewrite (IH fs1); [| |exact Hobj].
    + eapply decode_member_other; [|eassumption]. apply (Habs k j). now left.
    + intros k' j' Hin. apply (Habs k' j'). now right.
Qed.

(** A field holds what the last member that selects it decoded to. *)
Lemma decode_object_present fields ms1 k j ms2 fs fs' (d : field) :
  select_field (key_matcher fields k) fields = Some d ->
  In (field_name d) (value_names fs) ->
  (forall k' j', In (k', j') ms2 ->
                 selected_name fields k' <> Some (field_name d)) ->
  decode_object fields (ms1 ++ (k, j) :: ms2) fs = Ok fs' ->
  exists cur x,
    unmarshal (field_type d) j cur = Ok x
    /\ get_field (field_name d) fs' = Some x.
Proof.
  intros Hsel Hin Habs. rewrite decode_object_app.
  destruct (decode_object fields ms1 fs) as [fs1|e] eqn:H1;
    cbn [bind Monad_result]; [|discriminate].
  cbn [decode_object].
  destruct (decode_member fields k j fs1) as [fs2|e] eqn:Hm;
    cbn [bind Monad_result]; [|discriminate].
  intros H2.
  assert (Hin1 : In (field_name d) (value_names fs1)).
  { rewrite (decode_object_names _ _ _ _ H1). exact Hin. }
  destruct (decode_member_hit _ _ j _ _ _ Hsel Hin1 Hm) as (x & Hx & Hget).
  eexists _, x. split; [exact Hx|].
  eapply eq_trans; [eapply decode_object_absent; eassumption|exact Hget].
Qed.

(** *** Nil and not nil *)

(** A value that fills a pointer or a slice leaves it non-nil. *)
Lemma unmarshal_fills (t : gotype) (j : json) (cur x : value) :
  fills t j = true -> unmarshal t j cur = Ok x -> is_nil x = false.
Proof.
  destruct t; try discriminate; intros Hfill.
  - destruct j; try discriminate; cbn [unmarshal];
      match goal with
      | |- context [unmarshal ?t ?j ?c] => destruct (unmarshal t j c)
      end; cbn [bind ret Monad_result]; intros [= <-]; reflexivity.
  - destruct j; try discriminate. rewrite unmarshal_slice.
    destruct (decode_elems _ _ _); cbn [bind ret Monad_result];
      intros [= <-]; reflexivity.
Qed.

(** *** A fresh struct *)

Lemma zero_struct (fields : list field) :
  zero (TStruct fields) = VStruct (zero_fields fields).
Proof.
  cbn [zero]. f_equal.
  induction fields as [|[name ty jt ut] fields IH]; [reflexivity|].
  cbn [zero_fields field_name field_type]. now rewrite <- IH.
Qed.

Lemma zero_fields_names (fields : list field) :
  value_names (zero_fields fields) = field_names fields.
Proof.
  induction fields as [|d fields IH]; simpl; [reflexivity|now rewrite IH].
Qed.

Lemma zero_fields_get (fields : list field) (d : field) :
  NoDup (field_names fields) -> In d fields ->
  get_field (field_name d) (zero_fields fields) = Some (zero (field_type d)).
Proof.
  induction fields as [|d' fields IH]; [intros _ []|].
  cbn [field_names map zero_fields get_field]. intros Hnd [->|Hin].
  - now rewrite String.eqb_refl.
  - inversion Hnd as [|? ? Hnotin Hnd']; subst.
    destruct (String.eqb_spec (field_name d') (field_name d)) as [Heq|_].
    + exfalso. apply Hnotin. rewrite Heq. now apply in_map.
    + now apply IH.
Qed.

(** On a struct type whose fields have distinct names, decoded into a
    fresh variable: a nilable field that no member of the payload
    selects is nil, and one that a member selects with a value that
    fills it, with no later member for it, is not nil. *)
Lemma nilable_field_absent (fields : list field) (d : field) ms v :
  NoDup (field_names fields) -> In d fields ->
  nilable (field_type d) = true ->
  (forall k j, In (k, j) ms -> selected_name fields k <> Some (field_name d)) ->
  unmarshal (TStruct fields) (JObj ms) (zero (TStruct fields)) = Ok v ->
  sel (field_name d) v = Some VNil.
Proof.
  intros Hnd Hin Hnil Habs. rewrite unmarshal_struct, zero_struct.
  destruct (decode_object _ _ _) as [fs|e] eqn:Hobj;
    cbn [bind ret Monad_result]; [|discriminate].
  intros [= <-]. cbn [sel].
  eapply eq_trans; [eapply decode_object_absent; eassumption|].
  rewrite zero_fields_get by assumption.
  destruct (field_type d); try discriminate; reflexivity.
Qed.

Lemma struct_field_present (fields : list field) (d : field) ms1 k j ms2 v :
  NoDup (field_names fields) -> In d fields ->
  select_field (key_matcher fields k) fields = Some d ->
  (forall k' j', In (k', j') ms2 ->
                 selected_name fields k' <> Some (field_name d)) ->
  unmarshal (TStruct fields) (JObj (ms1 ++ (k, j) :: ms2))
    (zero (TStruct fields)) = Ok v ->
  exists cur x,
    unmarshal (field_type d) j cur = Ok x /\ sel (field_name d) v = Some x.
Proof.
  intros Hnd Hin Hsel Habs. rewrite unmarshal_struct, zero_struct.
  destruct (decode_object _ _ _) as [fs|e] eqn:Hobj;
    cbn [bind ret Monad_result]; [|discriminate].
  intros [= <-]. cbn [sel].
  assert (Hname : In (field_name d) (value_names (zero_fields fields))).
  { rewrite zero_fields_names. now apply in_map. }
  eapply decode_object_present; eassumption.
Qed.

Lemma nilable_field_present (fields : list field) (d : field) ms1 k j ms2 v :
  NoDup (field_names fields) -> In d fields ->
  select_field (key_matcher fields k) fields = Some d ->
  fills (field_type d) j = true ->
  (forall k' j', In (k', j') ms2 ->
                 selected_name fields k' <> Some (field_name d)) ->
  unmarshal (TStruct fields) (JObj (ms1 ++ (k, j) :: ms2))
    (zero (TStruct fields)) = Ok v ->
  exists x, sel (field_name d) v = Some x /\ is_nil x = false.
Proof.
  intros Hnd Hin Hsel Hfill Habs Hv.
  destruct (struct_field_present fields d ms1 k j ms2 v Hnd Hin Hsel Habs Hv)
    as (cur & x & Hx & Hget).
  exists x. split; [exact Hget|].
  eapply unmarshal_fills; eassumption.
Qed.

(** *** The fields of [MergeRequestDependency] *)

Lemma MergeRequestDependency_names_distinct :
  NoDup (field_names MergeRequestDependency_fields).
Proof.
  assert (H : nodup string_dec (field_names MergeRequestDependency_fields)
              = field_names MergeRequestDependency_fields)
    by (vm_compute; reflexivity).
  rewrite <- H. apply NoDup_nodup.
Qed.

(** The identifier of a decoded dependency is the number of the last
    [id] member of the payload. *)
Lemma dependency_id_decoded ms1 (n : Z) ms2 v :
  in_int n = true ->
  (forall k' j', In (k', j') ms2 ->
                 selected_name MergeRequestDependency_fields k' <> Some "ID") ->
  unmarshal MergeRequestDependency (JObj (ms1 ++ ("id", JNum n) :: ms2))
    (zero MergeRequestDependency) = Ok v ->
  dependency_id v = Some (VInt n).
Proof.
  intros Hn Habs Hv.
  destruct (struct_field_present MergeRequestDependency_fields
              (json_field "ID" TInt "id") ms1 "id" (JNum n) ms2 v
              MergeRequestDependency_names_distinct
              (or_introl eq_refl) eq_refl Habs Hv)
    as (cur & x & Hx & Hget).
  cbn [unmarshal json_field field_type] in Hx. rewrite Hn in Hx.
  injection Hx as <-. exact Hget.
Qed.

(** *** The fields of [BlockingMergeRequest] *)

Lemma BlockingMergeRequest_names_distinct :
  NoDup (field_names BlockingMergeRequest_fields).
Proof.
  assert (H : nodup string_dec (field_names BlockingMergeRequest_fields)
              = field_names BlockingMergeRequest_fields)
    by (vm_compute; reflexivity).
  rewrite <- H. apply NoDup_nodup.
Qed.

(** The fields that have a nil value: the pointers and the slices. *)
Lemma BlockingMergeRequest_nilable_fields :
  field_names
    (filter (fun d => nilable (field_type d)) BlockingMergeRequest_fields)
  = ["Author"; "Assignee"; "Assignees"; "Reviewers"; "Labels"; "Milestone";
     "MergedBy"; "MergedAt"; "ClosedBy"; "ClosedAt";
     "ShouldRemoveSourceBranch"; "References"; "DiscussionLocked";
     "TimeStats"; "ApprovalsBeforeMerge"; "TaskCompletionStatus";
     "MergeUser"; "PreparedAt"].
Proof. reflexivity. Qed.

(** The tag of a field selects that field. *)
Lemma BlockingMergeRequest_tag_selects :
  Forall (fun d =>
            select_field
              (key_matcher BlockingMergeRequest_fields
                 (tag_name (field_json d)))
              BlockingMergeRequest_fields = Some d)
    BlockingMergeRequest_fields.
Proof.
  unfold BlockingMergeRequest_fields at 3.
  repeat (apply Forall_cons; [vm_compute; reflexivity|]).
  apply Forall_nil.
Qed.

(** An [int], [string] or [bool] field decodes alike from a payload
    without it and from a payload that has it with its zero value. *)
Lemma BlockingMergeRequest_scalars_conflate :
  Forall (fun d =>
            forall j0, zero_json (field_type d) = Some j0 ->
              unmarshal BlockingMergeRequest
                (JObj [(tag_name (field_json d), j0)])
                (zero BlockingMergeRequest)
              = unmarshal BlockingMergeRequest (JObj [])
                  (zero BlockingMergeRequest))
    BlockingMergeRequest_fields.
Proof.
  unfold BlockingMergeRequest_fields at 1.
  repeat (apply Forall_cons;
          [intros j0 Hj; vm_compute in Hj;
           first [discriminate Hj
                 |injection Hj as <-; vm_compute; reflexivity]|]).
  apply Forall_nil.
Qed.

(** C8, amended.  For every pointer-typed and every slice-typed field
    of [BlockingMergeRequest], decoded into a fresh variable: a payload
    in which no member selects the field leaves it nil, and a payload
    in which a member selects it with a value that fills it (any value
    but [null] for a pointer, the zero value of the pointed-to type
    with them; an array for a slice) and no later member selects it
    leaves it non-nil; so the two decoded structs differ. *)
Theorem nilable_fields_tell_absent_from_present
    (d : field) (absent before after : list (string * json))
    (k : string) (j : json) (v v' : value) :
  In d BlockingMergeRequest_fields ->
  nilable (field_type d) = true ->
  (forall k' j', In (k', j') absent ->
     selected_name BlockingMergeRequest_fields k' <> Some (field_name d)) ->
  unmarshal BlockingMergeRequest (JObj absent) (zero BlockingMergeRequest)
    = Ok v ->
  select_field (key_matcher BlockingMergeRequest_fields k)
    BlockingMergeRequest_fields = Some d ->
  fills (field_type d) j = true ->
  (forall k' j', In (k', j') after ->
     selected_name BlockingMergeRequest_fields k' <> Some (field_name d)) ->
  unmarshal BlockingMergeRequest (JObj (before ++ (k, j) :: after))
    (zero BlockingMergeRequest) = Ok v' ->
  sel (field_name d) v = Some VNil
  /\ (exists x, sel (field_name d) v' = Some x /\ is_nil x = false)
  /\ v <> v'.
Proof.
  intros Hin Hnil Habs Hv Hsel Hfill Hafter Hv'.
  assert (Hnone : sel (field_name d) v = Some VNil).
  { exact (nilable_field_absent BlockingMergeRequest_fields d absent v
             BlockingMergeRequest_names_distinct Hin Hnil Habs Hv). }
  assert (Hsome : exists x, sel (field_name d) v' = Some x /\ is_nil x = false).
  { exact (nilable_field_present BlockingMergeRequest_fields d before k j
             after v' BlockingMergeRequest_names_distinct Hin Hsel Hfill
             Hafter Hv'). }
  destruct Hsome as (x & Hsome & Hx).
  split; [exact Hnone|]. split; [now exists x|].
  intros ->. rewrite Hnone in Hsome. injection Hsome as <-. discriminate Hx.
Qed.

End Decoder.

(** ** Listing, against a client that decodes the body *)

Section Listing.
Context {E : External} {T : ClientTypes} {I : Identifiers}.
Variable World : Type.
Variable newRequest :
  string -> string -> option CreateMergeRequestDependencyOptions ->
  list RequestOptionFunc -> World -> result Request * World.
Variable roundTrip :
  Request -> World -> option Response * option error * json * World.

(** Into an empty slice, every item of an array is decoded into a zero
    value of the element type. *)
Lemma decode_elems_fresh (elem : gotype) (items : list json) (xs : list value) :
  Forall2 (fun j x => unmarshal elem j (zero elem) = Ok x) items xs ->
  decode_elems elem items [] = Ok xs.
Proof.
  induction 1 as [|j x items xs Hx _ IH]; [reflexivity|].
  cbn [decode_elems hd tl]. rewrite Hx. cbn [bind Monad_result].
  rewrite IH. reflexivity.
Qed.

(** C4. With an accepted identifier, [GetMergeRequestDependencies]
    makes exactly one call of [NewRequest], with the method GET, no
    body and the path
    [projects/<escaped parent>/merge_requests/<mergeRequest>/blocks],
    and sends the request built by exactly one call of [Do].  Against a
    client whose [Do] decodes the body: when the request is built, the
    transport gives no error and the body is a JSON array of which each
    item decodes to a [MergeRequestDependency], the method returns
    these records, one per item and in the order of the array, with the
    response metadata of the transport and a nil error. *)
Theorem Get_returns_the_decoded_list
    (pid : any) (project : string) (mergeRequest : Z)
    (options : list RequestOptionFunc) (w : World) :
  parseID pid = Ok project ->
  let c := Build_Client newRequest (Do_decoding roundTrip) in
  exists u tail,
    one_listing c u options w
      (run c (GetMergeRequestDependencies pid mergeRequest options) w)
    /\ u = "projects/" ++ PathEscape project ++ "/" ++ tail
    /\ segments tail = ["merge_requests"; itoa mergeRequest; "blocks"]
    /\ forall req w1 resp items w2 xs,
         newRequest http.MethodGet u None options w = (Ok req, w1) ->
         roundTrip req w1 = (resp, None, JArr items, w2) ->
         Forall2 (fun j x =>
                    unmarshal MergeRequestDependency j
                      (zero MergeRequestDependency) = Ok x) items xs ->
         run c (GetMergeRequestDependencies pid mergeRequest options) w
         = ((Some xs, resp, None), w2,
            [CallNewRequest http.MethodGet u None options (Ok req);
             CallDo req (Some None)
               {| do_resp := resp; do_err := None; do_v := Some xs |}])
         /\ length xs = length items.
Proof.
  intros Hpid c.
  exists (blocks_path (PathEscape project) mergeRequest),
    ("merge_requests/" ++ itoa mergeRequest ++ "/blocks").
  split; [apply Get_listing; assumption|].
  split; [reflexivity|].
  split; [apply segments_blocks_tail|].
  intros req w1 resp items w2 xs Hnew Hrt Hxs.
  split; [|symmetry; eapply Forall2_length; eassumption].
  unfold GetMergeRequestDependencies. rewrite Hpid.
  cbn [run handle log_entry call bind ret Monad_prog prog_bind c
         client_NewRequest client_Do].
  rewrite Hnew.
  cbn [run handle log_entry call bind ret Monad_prog prog_bind c
         client_NewRequest client_Do].
  unfold Do_decoding. rewrite Hrt.
  rewrite unmarshal_slice. cbn [slice_value].
  rewrite (decode_elems_fresh _ _ _ Hxs).
  reflexivity.
Qed.

End Listing.

(** * The theorems at work on the test double *)

(** An identifier of type [float64] is rejected, and nothing is called. *)
Lemma invalid_identifier_makes_no_call_witness :
  let err :=
    errorString "invalid ID type float64, the ID must be an int or a string" in
  let opts := {| BlockingMergeRequestID := 7 |} in
  let c := fake_client (script_ok JNull) in
  run c (Create' (DOther "float64") 5 opts []) 0%nat = ((None, Some err), 0%nat, [])
  /\ run c (Delete' (DOther "float64") 5 6 []) 0%nat = ((None, Some err), 0%nat, [])
  /\ run c (Get' (DOther "float64") 5 []) 0%nat = ((None, None, Some err), 0%nat, []).
Proof.
  intros err opts c.
  exact (@invalid_identifier_makes_no_call raw_external fake_types
           model_identifiers nat c (DOther "float64") err 5 6 opts [] 0%nat
           eq_refl).
Defined.

(** A client that cannot build the request is never asked to send one. *)
Lemma request_construction_error_makes_no_Do_witness :
  let err := errorString "parse: invalid URL" in
  let opts := {| BlockingMergeRequestID := 7 |} in
  let c := fake_client script_build_error in
  run c (Create' (DInt 1) 5 opts []) 0%nat
  = ((None, Some err), 0%nat,
     [CallNewRequest "POST" "projects/1/merge_requests/5/blocks" (Some opts) []
        (Err err)])
  /\ run c (Delete' (DInt 1) 5 6 []) 0%nat
     = ((None, Some err), 0%nat,
        [CallNewRequest "DELETE" "projects/1/merge_requests/5/blocks/6" None []
           (Err err)])
  /\ run c (Get' (DInt 1) 5 []) 0%nat
     = ((None, None, Some err), 0%nat,
        [CallNewRequest "GET" "projects/1/merge_requests/5/blocks" None []
           (Err err)]).
Proof.
  intros err opts c.
  destruct (@request_construction_error_makes_no_Do raw_external fake_types
              model_identifiers nat c (DInt 1) "1" 5 6 opts [] 0%nat 0%nat err
              eq_refl) as (HC & HD & HG).
  split; [exact (HC eq_refl)|].
  split; [exact (HD eq_refl)|exact (HG eq_refl)].
Defined.

(** A transport failure comes back as it is, with the status. *)
Lemma Do_error_is_returned_as_is_witness :
  let err := errorString "500 Internal Server Error" in
  let c := fake_client script_transport_error in
  fst (fst (run c (Create' (DInt 1) 5 {| BlockingMergeRequestID := 7 |} [])
              0%nat))
  = (Some 500, Some err)
  /\ fst (fst (run c (Delete' (DInt 1) 5 6 []) 0%nat)) = (Some 500, Some err)
  /\ fst (fst (run c (Get' (DInt 1) 5 []) 0%nat)) = (None, Some 500, Some err).
Proof.
  intros err c.
  pose (d := @Build_DoReturn raw_external fake_types (Some 500) (Some err) None).
  assert (HC := fun req v =>
            @Do_error_is_returned_as_is raw_external fake_types
              model_identifiers nat c (DInt 1) 5 6
              {| BlockingMergeRequestID := 7 |} [] 0%nat req v d err eq_refl).
  split; [|split].
  - destruct (HC ("POST", "projects/1/merge_requests/5/blocks") None)
      as (H & _ & _).
    exact (proj1 (H _ _ _ eq_refl (or_intror (or_introl eq_refl)))).
  - destruct (HC ("DELETE", "projects/1/merge_requests/5/blocks/6") None)
      as (_ & H & _).
    exact (proj1 (H _ _ _ eq_refl (or_intror (or_introl eq_refl)))).
  - destruct (HC ("GET", "projects/1/merge_requests/5/blocks") (Some None))
      as (_ & _ & H).
    exact (proj1 (H _ _ _ eq_refl (or_intror (or_introl eq_refl)))).
Defined.

(** Deleting the dependency of merge request 5 on merge request 6 in
    project [group/project]. *)
Lemma Delete_issues_one_DELETE_witness :
  let c := fake_client (script_ok JNull) in
  let out := run c (Delete' (DString "group/project") 5 6 []) 0%nat in
  (exists u tail,
      one_round_trip c "DELETE" u None [] 0%nat out
      /\ u = "projects/" ++ "group%2Fproject" ++ "/" ++ tail
      /\ segments tail = ["merge_requests"; "5"; "blocks"; "6"])
  /\ out
     = ((Some 200, None), 1%nat,
        [CallNewRequest "DELETE"
           "projects/group%2Fproject/merge_requests/5/blocks/6" None []
           (Ok (("DELETE", "projects/group%2Fproject/merge_requests/5/blocks/6")
                : @Request fake_types));
         CallDo (("DELETE", "projects/group%2Fproject/merge_requests/5/blocks/6")
                 : @Request fake_types)
           None
           (@Build_DoReturn raw_external fake_types (Some 200) None None)]).
Proof.
  intros c out. split; [|reflexivity].
  exact (@Delete_issues_one_DELETE raw_external fake_types model_identifiers
           nat c (DString "group/project") "group/project" 5 6 [] 0%nat
           eq_refl).
Defined.

(** Creating a dependency on merge request 7. *)
Lemma Create_issues_one_POST_witness :
  let c := fake_client (script_ok JNull) in
  let opts := {| BlockingMergeRequestID := 7 |} in
  exists u tail,
    one_round_trip c "POST" u (Some opts) [] 0%nat
      (run c (Create' (DInt 42) 5 opts []) 0%nat)
    /\ u = "projects/" ++ "42" ++ "/" ++ tail
    /\ segments tail = ["merge_requests"; "5"; "blocks"]
    /\ @options_body raw_external opts
       = JObj [("blocking_merge_request_id", JNum 7)]
    /\ @options_query raw_external opts
       = Some [("blocking_merge_request_id", "7")].
Proof.
  intros c opts.
  refine (@Create_issues_one_POST raw_external fake_types model_identifiers
            nat c (DInt 42) "42" 5 opts [] 0%nat eq_refl _).
  simpl. lia.
Defined.

(** C2 as stated fails when the identifier supplied is zero: the one
    request is built from options whose serializations hold no field. *)
Lemma Create_with_zero_identifier_sends_no_field :
  let c := fake_client (script_ok JNull) in
  let opts := {| BlockingMergeRequestID := 0 |} in
  parseID_model (DInt 42) = Ok "42"
  /\ request_opts (snd (run c (Create' (DInt 42) 5 opts []) 0%nat))
     = [Some opts]
  /\ has_key "blocking_merge_request_id"
       (members_of (@options_body raw_external opts)) = false
  /\ @options_body raw_external opts = JObj []
  /\ @options_query raw_external opts = Some [].
Proof. repeat split. Qed.

(** Creating a dependency with the identifier left at zero. *)
Lemma zero_identifier_is_omitted_witness :
  let c := fake_client (script_ok JNull) in
  let opts := {| BlockingMergeRequestID := 0 |} in
  Forall (fun opt => opt = Some opts)
    (request_opts (snd (run c (Create' (DInt 42) 5 opts []) 0%nat)))
  /\ @options_body raw_external opts = JObj []
  /\ @options_query raw_external opts = Some []
  /\ has_key "blocking_merge_request_id"
       (members_of (@options_body raw_external opts)) = false.
Proof.
  intros c opts.
  exact (@zero_identifier_is_omitted raw_external fake_types model_identifiers
           nat c (DInt 42) 5 opts [] 0%nat eq_refl).
Defined.

(** C5 as stated fails for project 1 and merge request 1: the escaped
    identifier [1] occurs twice in the path of each method, as a
    substring and as a segment. *)
Lemma escaped_identifier_occurs_twice :
  let c := fake_client (script_ok JNull) in
  let opts := {| BlockingMergeRequestID := 7 |} in
  let u := "projects/1/merge_requests/1/blocks" in
  let u' := "projects/1/merge_requests/1/blocks/3" in
  parseID_model (DInt 1) = Ok "1"
  /\ PathEscape_model "1" = "1"
  /\ request_paths (snd (run c (Create' (DInt 1) 1 opts []) 0%nat)) = [u]
  /\ request_paths (snd (run c (Delete' (DInt 1) 1 3 []) 0%nat)) = [u']
  /\ request_paths (snd (run c (Get' (DInt 1) 1 []) 0%nat)) = [u]
  /\ occurrences "1" u = 2%nat
  /\ occurrences "1" u' = 2%nat
  /\ count_occ string_dec (segments u) "1" = 2%nat
  /\ count_occ string_dec (segments u') "1" = 2%nat.
Proof. repeat split. Qed.

(** The project [a/b.c]: its escaped name is the second segment of the
    path of each method. *)
Lemma escaped_identifier_follows_projects_witness :
  let c := fake_client (script_ok JNull) in
  let opts := {| BlockingMergeRequestID := 7 |} in
  let blocks := "merge_requests/" ++ "5" ++ "/blocks" in
  let block := blocks ++ "/" ++ "6" in
  request_paths (snd (run c (Create' (DString "a/b.c") 5 opts []) 0%nat))
  = ["projects/" ++ "a%2Fb%2Ec" ++ "/" ++ blocks]
  /\ request_paths (snd (run c (Delete' (DString "a/b.c") 5 6 []) 0%nat))
     = ["projects/" ++ "a%2Fb%2Ec" ++ "/" ++ block]
  /\ request_paths (snd (run c (Get' (DString "a/b.c") 5 []) 0%nat))
     = ["projects/" ++ "a%2Fb%2Ec" ++ "/" ++ blocks]
  /\ segments ("projects/" ++ "a%2Fb%2Ec" ++ "/" ++ blocks)
     = ["projects"; "a%2Fb%2Ec"; "merge_requests"; "5"; "blocks"]
  /\ segments ("projects/" ++ "a%2Fb%2Ec" ++ "/" ++ block)
     = ["projects"; "a%2Fb%2Ec"; "merge_requests"; "5"; "blocks"; "6"].
Proof.
  intros c opts blocks block.
  destruct (@escaped_identifier_follows_projects raw_external fake_types
              model_identifiers nat c (DString "a/b.c") "a/b.c" 5 6 opts []
              0%nat eq_refl) as (HC & HD & HG & Hseg).
  destruct (Hseg (PathEscape_model_no_slash "a/b.c")) as [Hs Hs'].
  repeat split; assumption.
Defined.

(** The canned response: two dependencies with distinct identifiers
    and distinct blocking titles come back as two records with the same
    identifiers and titles, in the same order. *)
Lemma Get_returns_the_decoded_list_witness :
  let c := fake_client (script_ok fixture) in
  exists xs,
    fst (fst (run c (Get' (DString "group/project") 5 []) 0%nat))
    = (Some xs, Some 200, None)
    /\ request_paths (snd (run c (Get' (DString "group/project") 5 []) 0%nat))
       = ["projects/group%2Fproject/merge_requests/5/blocks"]
    /\ length xs = 2%nat
    /\ map dependency_id xs = [Some (VInt 1); Some (VInt 2)]
    /\ map blocking_title xs = [Some (VString "first"); Some (VString "second")].
Proof.
  intros c.
  destruct (@Get_returns_the_decoded_list raw_external fake_types
              model_identifiers nat (fake_NewRequest (script_ok fixture))
              (fake_roundTrip (script_ok fixture))
              (DString "group/project") "group/project" 5 [] 0%nat eq_refl)
    as (u & tail & _ & Hu & _ & Hget).
  subst u.
  edestruct Hget as [Hrun Hlen].
  - reflexivity.
  - reflexivity.
  - apply Forall2_cons; [vm_compute; reflexivity|].
    apply Forall2_cons; [vm_compute; reflexivity|].
    apply Forall2_nil.
  - eexists. split; [exact (f_equal (fun o => fst (fst o)) Hrun)|].
    split; [reflexivity|].
    split; [exact Hlen|].
    split; reflexivity.
Defined.

(** C8 as stated fails for the field [ID], an [int]: a payload without
    [id] and a payload with [id] zero decode to the same struct. *)
Lemma absent_id_decodes_like_zero_id :
  exists v,
    @unmarshal raw_external BlockingMergeRequest (JObj [])
      (zero BlockingMergeRequest) = Ok v
    /\ @unmarshal raw_external BlockingMergeRequest (JObj [("id", JNum 0)])
         (zero BlockingMergeRequest) = Ok v
    /\ sel "ID" v = Some (VInt 0).
Proof. eexists. repeat split. Qed.

(** The field [Milestone], a [*string]: nil without [milestone], a
    pointer to the empty string with [milestone] empty. *)
Lemma nilable_fields_tell_absent_from_present_witness :
  exists v v',
    @unmarshal raw_external BlockingMergeRequest (JObj [("id", JNum 0)])
      (zero BlockingMergeRequest) = Ok v
    /\ @unmarshal raw_external BlockingMergeRequest
         (JObj [("id", JNum 0); ("milestone", JStr "")])
         (zero BlockingMergeRequest) = Ok v'
    /\ sel "Milestone" v = Some VNil
    /\ sel "Milestone" v' = Some (VPtr (VString ""))
    /\ v <> v'.
Proof.
  eexists _, _.
  split; [vm_compute; reflexivity|]. split; [vm_compute; reflexivity|].
  edestruct (@nilable_fields_tell_absent_from_present raw_external
               (json_field "Milestone" (TPtr TString) "milestone")
               [("id", JNum 0)] [("id", JNum 0)] [] "milestone" (JStr ""))
    as (Hnil & _ & Hne).
  - vm_compute. tauto.
  - reflexivity.
  - intros k' j' [[= <- <-]|[]]. vm_compute. discriminate.
  - vm_compute. reflexivity.
  - vm_compute. reflexivity.
  - reflexivity.
  - intros k' j' [].
  - vm_compute. reflexivity.
  - split; [exact Hnil|]. split; [reflexivity|exact Hne].
Defined.

(** * Further properties *)

(** ** What the results of a method say about its run *)

Section Outcomes.
Context {E : External} {T : ClientTypes} {I : Identifiers}.
Variable World : Type.
Variable c : Client World.

(** X1. [GetMergeRequestDependencies] never returns a list together
    with an error: whatever the client does and whichever step fails,
    a non-nil error comes with a nil list. *)
Theorem Get_error_means_nil_list
    (pid : any) (mergeRequest : Z) (options : list RequestOptionFunc)
    (w w' : World) (mrd : slice value) (resp : option Response)
    (err : option error) (log : list entry) :
  run c (GetMergeRequestDependencies pid mergeRequest options) w
    = ((mrd, resp, err), w', log) ->
  err <> None ->
  mrd = None.
Proof.
  destruct (parseID pid) as [project|e] eqn:Hpid.
  - destruct (Get_listing World c pid project mergeRequest options w Hpid)
      as (r & w1 & _ & Hout).
    destruct r as [req|e].
    + destruct Hout as (d & w2 & _ & ->). intros [= <- _ <- _ _] Herr.
      destruct (do_err d); [reflexivity|contradiction].
    + rewrite Hout. now intros [= <- _ _ _ _].
  - unfold GetMergeRequestDependencies. rewrite Hpid.
    now intros [= <- _ _ _ _].
Qed.

(** X2. A nil error means a completed round trip: a method returns a
    nil error only after [parseID] accepted the identifier, [NewRequest]
    built a request, and the one call of [Do] on that request answered
    without an error; the response returned is the response of that
    call (and the list, the slice that call left in the target). *)
Theorem nil_error_means_completed_round_trip
    (pid : any) (mergeRequest blockingMergeRequest : Z)
    (opts : CreateMergeRequestDependencyOptions)
    (options : list RequestOptionFunc) (w w' : World)
    (resp : option Response) (log : list entry) :
  (run c (CreateMergeRequestDependency pid mergeRequest opts options) w
     = ((resp, None), w', log) ->
   exists project req d,
     parseID pid = Ok project
     /\ log = [CallNewRequest http.MethodPost
                 (blocks_path (PathEscape project) mergeRequest) (Some opts)
                 options (Ok req);
               CallDo req None d]
     /\ do_err d = None /\ do_resp d = resp)
  /\ (run c (DeleteMergeRequestDependency pid mergeRequest
               blockingMergeRequest options) w
        = ((resp, None), w', log) ->
      exists project req d,
        parseID pid = Ok project
        /\ log = [CallNewRequest http.MethodDelete
                    (block_path (PathEscape project) mergeRequest
                       blockingMergeRequest) None options (Ok req);
                  CallDo req None d]
        /\ do_err d = None /\ do_resp d = resp)
  /\ (forall mrd,
        run c (GetMergeRequestDependencies pid mergeRequest options) w
          = ((mrd, resp, None), w', log) ->
        exists project req d,
          parseID pid = Ok project
          /\ log = [CallNewRequest http.MethodGet
                      (blocks_path (PathEscape project) mergeRequest) None
                      options (Ok req);
                    CallDo req (Some None) d]
          /\ do_err d = None /\ do_resp d = resp /\ do_v d = mrd).
Proof.
  split; [|split].
  - destruct (parseID pid) as [project|e] eqn:Hpid.
    + destruct (Create_round_trip World c pid project mergeRequest opts options
                  w Hpid) as (r & w1 & _ & Hout).
      destruct r as [req|e].
      * destruct Hout as (d & w2 & _ & ->). intros [= <- Herr _ <-].
        exists project, req, d. auto.
      * rewrite Hout. discriminate.
    + unfold CreateMergeRequestDependency. rewrite Hpid. discriminate.
  - destruct (parseID pid) as [project|e] eqn:Hpid.
    + destruct (Delete_round_trip World c pid project mergeRequest
                  blockingMergeRequest options w Hpid) as (r & w1 & _ & Hout).
      destruct r as [req|e].
      * destruct Hout as (d & w2 & _ & ->). intros [= <- Herr _ <-].
        exists project, req, d. auto.
      * rewrite Hout. discriminate.
    + unfold DeleteMergeRequestDependency. rewrite Hpid. discriminate.
  - intros mrd. destruct (parseID pid) as [project|e] eqn:Hpid.
    + destruct (Get_listing World c pid project mergeRequest options w Hpid)
        as (r & w1 & _ & Hout).
      destruct r as [req|e].
      * destruct Hout as (d & w2 & _ & ->). intros [= <- <- Herr _ <-].
        exists project, req, d. rewrite Herr. auto.
      * rewrite Hout. discriminate.
    + unfold GetMergeRequestDependencies. rewrite Hpid. discriminate.
Qed.

(** X3. A response is never made up: when a method returns a non-nil
    response, the log holds a call of [Do] that answered with this
    response and with the error the method returns. *)
Theorem response_comes_from_Do
    (pid : any) (mergeRequest blockingMergeRequest : Z)
    (opts : CreateMergeRequestDependencyOptions)
    (options : list RequestOptionFunc) (w w' : World)
    (resp : Response) (err : option error) (log : list entry) :
  (run c (CreateMergeRequestDependency pid mergeRequest opts options) w
     = ((Some resp, err), w', log) ->
   exists req d,
     In (CallDo req None d) log /\ do_resp d = Some resp /\ do_err d = err)
  /\ (run c (DeleteMergeRequestDependency pid mergeRequest
               blockingMergeRequest options) w
        = ((Some resp, err), w', log) ->
      exists req d,
        In (CallDo req None d) log /\ do_resp d = Some resp /\ do_err d = err)
  /\ (forall mrd,
        run c (GetMergeRequestDependencies pid mergeRequest options) w
          = ((mrd, Some resp, err), w', log) ->
        exists req d,
          In (CallDo req (Some None) d) log
          /\ do_resp d = Some resp /\ do_err d = err).
Proof.
  split; [|split].
  - destruct (parseID pid) as [project|e] eqn:Hpid.
    + destruct (Create_round_trip World c pid project mergeRequest opts options
                  w Hpid) as (r & w1 & _ & Hout).
      destruct r as [req|e].
      * destruct Hout as (d & w2 & _ & ->). intros [= Hresp Herr _ <-].
        exists req, d. split; [right; now left|auto].
      * rewrite Hout. discriminate.
    + unfold CreateMergeRequestDependency. rewrite Hpid. discriminate.
  - destruct (parseID pid) as [project|e] eqn:Hpid.
    + destruct (Delete_round_trip World c pid project mergeRequest
                  blockingMergeRequest options w Hpid) as (r & w1 & _ & Hout).
      destruct r as [req|e].
      * destruct Hout as (d & w2 & _ & ->). intros [= Hresp Herr _ <-].
        exists req, d. split; [right; now left|auto].
      * rewrite Hout. discriminate.
    + unfold DeleteMergeRequestDependency. rewrite Hpid. discriminate.
  - intros mrd. destruct (parseID pid) as [project|e] eqn:Hpid.
    + destruct (Get_listing World c pid project mergeRequest options w Hpid)
        as (r & w1 & _ & Hout).
      destruct r as [req|e].
      * destruct Hout as (d & w2 & _ & ->). intros [= _ Hresp Herr _ <-].
        exists req, d. split; [right; now left|auto].
      * rewrite Hout. discriminate.
    + unfold GetMergeRequestDependencies. rewrite Hpid. discriminate.
Qed.

End Outcomes.

(** ** Paths and options *)

Lemma itoa_inj (n m : Z) : itoa n = itoa m -> n = m.
Proof.
  unfold itoa. intros H. apply DecimalZ.to_int_inj.
  assert (Hnil : forall z, Z.to_int z <> Decimal.Pos Decimal.Nil
                           /\ Z.to_int z <> Decimal.Neg Decimal.Nil).
  { intros [|p|p]; simpl; split; try discriminate;
      intros [= Hp]; exact (DecimalPos.Unsigned.to_uint_nonnil p Hp). }
  apply (f_equal NilZero.int_of_string) in H.
  rewrite !NilZero.isi in H by apply Hnil.
  now injection H.
Qed.

Lemma segments_blocks_path (esc : string) (mergeRequest : Z) :
  no_slash esc = true ->
  segments (blocks_path esc mergeRequest)
  = ["projects"; esc; "merge_requests"; itoa mergeRequest; "blocks"].
Proof.
  intros Hesc.
  change (segments ("projects" ++ String "/"
                      (esc ++ String "/"
                         ("merge_requests/" ++ itoa mergeRequest ++ "/blocks")))
          = ["projects"; esc; "merge_requests"; itoa mergeRequest; "blocks"]).
  rewrite (segments_app "projects" _ eq_refl), (segments_app _ _ Hesc).
  now rewrite segments_blocks_tail.
Qed.

Lemma segments_block_path (esc : string) (mergeRequest blockingMergeRequest : Z) :
  no_slash esc = true ->
  segments (block_path esc mergeRequest blockingMergeRequest)
  = ["projects"; esc; "merge_requests"; itoa mergeRequest; "blocks";
     itoa blockingMergeRequest].
Proof.
  intros Hesc.
  change (segments ("projects" ++ String "/"
                      (esc ++ String "/"
                         ("merge_requests/" ++ itoa mergeRequest
                            ++ "/blocks/" ++ itoa blockingMergeRequest)))
          = ["projects"; esc; "merge_requests"; itoa mergeRequest; "blocks";
             itoa blockingMergeRequest]).
  rewrite (segments_app "projects" _ eq_refl), (segments_app _ _ Hesc).
  now rewrite segments_block_tail.
Qed.

(** X4. The paths tell the resources apart: for escaped identifiers
    without a slash, two list (or create) paths are equal only for the
    same project and merge request, two delete paths only for the same
    project, merge request and blocking merge request, and a list path
    is never a delete path. *)
Theorem request_paths_tell_resources_apart
    (esc1 esc2 : string) (m1 m2 b1 b2 : Z) :
  no_slash esc1 = true -> no_slash esc2 = true ->
  (blocks_path esc1 m1 = blocks_path esc2 m2 -> esc1 = esc2 /\ m1 = m2)
  /\ (block_path esc1 m1 b1 = block_path esc2 m2 b2 ->
      esc1 = esc2 /\ m1 = m2 /\ b1 = b2)
  /\ blocks_path esc1 m1 <> block_path esc2 m2 b2.
Proof.
  intros H1 H2. split; [|split]; intros Heq; apply (f_equal segments) in Heq.
  - rewrite !segments_blocks_path in Heq by assumption.
    injection Heq as -> Hm. split; [reflexivity|now apply itoa_inj].
  - rewrite !segments_block_path in Heq by assumption.
    injection Heq as -> Hm Hb. repeat split; now apply itoa_inj.
  - rewrite segments_blocks_path, segments_block_path in Heq by assumption.
    discriminate Heq.
Qed.

Section Options.
Context {E : External}.

(** X5. The JSON body of the options decodes back to the options, for
    every identifier within the 64 bits of an [int], zero (left out of
    the body) included. *)
Theorem options_body_round_trip (opts : CreateMergeRequestDependencyOptions) :
  in_int (BlockingMergeRequestID opts) = true ->
  unmarshal CreateMergeRequestDependencyOptions_type (options_body opts)
    (zero CreateMergeRequestDependencyOptions_type)
  = Ok (options_value opts).
Proof.
  intros Hid. destruct (Z.eq_dec (BlockingMergeRequestID opts) 0) as [Hz|Hnz].
  - destruct opts as [id]. cbn in Hz. subst id. reflexivity.
  - rewrite (options_body_nonzero opts Hnz). destruct opts as [id].
    cbn [BlockingMergeRequestID] in *.
    cbv -[in_int]. rewrite Hid. reflexivity.
Qed.

(** X6. Options that differ serialize differently, as a JSON body and
    as a query: leaving out the zero identifier merges no two options. *)
Theorem options_serializations_are_injective
    (o1 o2 : CreateMergeRequestDependencyOptions) :
  (options_body o1 = options_body o2 -> o1 = o2)
  /\ (options_query o1 = options_query o2 -> o1 = o2).
Proof.
  destruct o1 as [i1], o2 as [i2].
  unfold options_body, options_query, options_value. simpl.
  destruct (Z.eqb_spec i1 0) as [->|H1], (Z.eqb_spec i2 0) as [->|H2];
    split; intros Heq; try reflexivity; try discriminate Heq.
  - injection Heq as ->. reflexivity.
  - injection Heq as Heq. apply itoa_inj in Heq. now subst.
Qed.
End Options.

(** ** Keys and members *)

Section Keys.
Context {E : External}.



Lemma select_field_some (p : string -> bool) (ds : list field) (d : field) :
  select_field p ds = Some d -> In d ds /\ p (tag_name (field_json d)) = true.
Proof.
  induction ds as [|d' ds IH]; [discriminate|]. cbn [select_field].
  destruct (p (tag_name (field_json d'))) eqn:Hp.
  - intros [= <-]. split; [now left|exact Hp].
  - intros H. destruct (IH H). split; [now right|assumption].
Qed.

Lemma select_field_none (p : string -> bool) (ds : list field) :
  select_field p ds = None <->
  (forall d, In d ds -> p (tag_name (field_json d)) = false).
Proof.
  induction ds as [|d' ds IH]; cbn [select_field].
  - split; [intros _ d []|reflexivity].
  - destruct (p (tag_name (field_json d'))) eqn:Hp.
    + split; [discriminate|]. intros H. rewrite (H d') in Hp by now left.
      discriminate.
    + rewrite IH. split.
      * intros H d [<-|Hin]; auto.
      * intros H d Hin. apply H. now right.
Qed.

Lemma NoDup_map_eq {A B : Type} (f : A -> B) (l : list A) (a b : A) :
  NoDup (map f l) -> In a l -> In b l -> f a = f b -> a = b.
Proof.
  induction l as [|x l IH]; [intros _ []|].
  cbn [map]. intros Hnd Ha Hb Hf. inversion Hnd as [|? ? Hx Hnd']; subst.
  destruct Ha as [->|Ha], Hb as [->|Hb]; try reflexivity.
  - exfalso. apply Hx. rewrite Hf. now apply in_map.
  - exfalso. apply Hx. rewrite <- Hf. now apply in_map.
  - now apply IH.
Qed.

(** With distinct names and tags that stay distinct when folded, a key
    selects a field exactly when it folds like the field's tag. *)
Lemma key_selects_iff (fields : list field) (d : field) (k : string) :
  NoDup (field_names fields) -> NoDup (folded_tags fields) -> In d fields ->
  selected_name fields k = Some (field_name d)
  <-> foldName k = foldName (tag_name (field_json d)).
Proof.
  intros Hnames Hfold Hin. unfold selected_name, key_matcher.
  destruct (existsb _ fields) eqn:Hex.
  - apply existsb_exists in Hex. destruct Hex as (d0 & Hin0 & Hk).
    apply String.eqb_eq in Hk.
    destruct (select_field (fun n => String.eqb n k) fields) as [d'|] eqn:Hsel.
    + destruct (select_field_some _ _ _ Hsel) as [Hin' Hk'].
      apply String.eqb_eq in Hk'. cbn [option_map]. split.
      * intros [= Hn].
        rewrite <- (NoDup_map_eq field_name fields d' d Hnames Hin' Hin Hn).
        now rewrite Hk'.
      * intros Hf. f_equal. f_equal.
        apply (NoDup_map_eq (fun d => foldName (tag_name (field_json d)))
                 fields d' d Hfold Hin' Hin).
        now rewrite Hk'.
    + exfalso. rewrite select_field_none in Hsel.
      specialize (Hsel d0 Hin0). rewrite Hk, String.eqb_refl in Hsel.
      discriminate.
  - destruct (select_field _ fields) as [d'|] eqn:Hsel.
    + destruct (select_field_some _ _ _ Hsel) as [Hin' Hk'].
      apply String.eqb_eq in Hk'. cbn [option_map]. split.
      * intros [= Hn].
        rewrite <- (NoDup_map_eq field_name fields d' d Hnames Hin' Hin Hn).
        now rewrite Hk'.
      * intros Hf. f_equal. f_equal.
        apply (NoDup_map_eq (fun d => foldName (tag_name (field_json d)))
                 fields d' d Hfold Hin' Hin).
        now rewrite Hk'.
    + cbn [option_map]. split; [discriminate|]. intros Hf. exfalso.
      rewrite select_field_none in Hsel. specialize (Hsel d Hin).
      cbn beta in Hsel. rewrite Hf, String.eqb_refl in Hsel. discriminate.
Qed.

Lemma key_selects_none_iff (fields : list field) (k : string) :
  selected_name fields k = None <-> ~ In (foldName k) (folded_tags fields).
Proof.
  unfold selected_name, key_matcher, folded_tags.
  destruct (existsb _ fields) eqn:Hex.
  - apply existsb_exists in Hex. destruct Hex as (d0 & Hin0 & Hk).
    apply String.eqb_eq in Hk. split.
    + destruct (select_field _ fields) eqn:Hsel; [discriminate|]. intros _.
      rewrite select_field_none in Hsel. specialize (Hsel d0 Hin0).
      rewrite Hk, String.eqb_refl in Hsel. discriminate.
    + intros Hnot. exfalso. apply Hnot. rewrite <- Hk.
      now apply (in_map (fun d => foldName (tag_name (field_json d)))).
  - destruct (select_field _ fields) as [d'|] eqn:Hsel; cbn [option_map].
    + destruct (select_field_some _ _ _ Hsel) as [Hin' Hk'].
      apply String.eqb_eq in Hk'. split; [discriminate|]. intros Hnot.
      exfalso. apply Hnot. rewrite <- Hk'.
      now apply (in_map (fun d => foldName (tag_name (field_json d)))).
    + split; [|reflexivity]. intros _ Hin.
      apply in_map_iff in Hin. destruct Hin as (d & Hd & Hin).
      rewrite select_field_none in Hsel. specialize (Hsel d Hin).
      cbn beta in Hsel. rewrite Hd, String.eqb_refl in Hsel. discriminate.
Qed.

Lemma NoDup_by_nodup (l : list string) :
  nodup string_dec l = l -> NoDup l.
Proof. intros <-. apply NoDup_nodup. Qed.

Lemma declared_structs_distinct (fields : list field) :
  In fields declared_structs ->
  NoDup (field_names fields) /\ NoDup (folded_tags fields).
Proof.
  intros [<-|[<-|[<-|[]]]]; split; apply NoDup_by_nodup; vm_compute;
    reflexivity.
Qed.

(** X7. In each struct declared in the file, a key of a payload selects
    a field exactly when the key and the [json] tag of the field are
    equal up to case, and it selects no field exactly when it is equal
    up to case to no tag. *)
Theorem keys_select_fields_up_to_case
    (fields : list field) (d : field) (k : string) :
  In fields declared_structs -> In d fields ->
  (selected_name fields k = Some (field_name d)
   <-> foldName k = foldName (tag_name (field_json d)))
  /\ (selected_name fields k = None
      <-> ~ In (foldName k) (folded_tags fields)).
Proof.
  intros Hf Hd. destruct (declared_structs_distinct fields Hf) as [Hn Ht].
  split; [now apply key_selects_iff|apply key_selects_none_iff].
Qed.

Lemma decode_object_skip (fields : list field) ms1 k j ms2 fs :
  selected_name fields k = None ->
  decode_object fields (ms1 ++ (k, j) :: ms2) fs
  = decode_object fields (ms1 ++ ms2) fs.
Proof.
  intros Hnone. rewrite !decode_object_app.
  destruct (decode_object fields ms1 fs) as [fs1|e]; [|reflexivity].
  cbn [bind Monad_result decode_object]. unfold decode_member.
  unfold selected_name in Hnone.
  destruct (select_field _ fields); [discriminate|]. reflexivity.
Qed.

(** X8. A member whose key is equal up to case to no tag of the struct
    is skipped: the payload decodes as it does without the member,
    wherever the member stands and whatever its value. *)
Theorem unknown_member_is_skipped
    (fields : list field) (ms1 ms2 : list (string * json))
    (k : string) (j : json) (cur : value) :
  In fields declared_structs ->
  ~ In (foldName k) (folded_tags fields) ->
  unmarshal (TStruct fields) (JObj (ms1 ++ (k, j) :: ms2)) cur
  = unmarshal (TStruct fields) (JObj (ms1 ++ ms2)) cur.
Proof.
  intros _ Hk. rewrite !unmarshal_struct.
  rewrite decode_object_skip; [reflexivity|].
  now apply key_selects_none_iff.
Qed.

Lemma scalar_value_unmarshal (t : gotype) (j : json) (cur x : value) :
  scalar_value t j = Some x -> unmarshal t j cur = Ok x.
Proof.
  destruct t, j; try discriminate; cbn [scalar_value unmarshal].
  - destruct (in_int n); [now intros [= <-]|discriminate].
  - now intros [= <-].
  - now intros [= <-].
Qed.

Lemma later_members_absent (fields : list field) (d : field)
    (ms : list (string * json)) :
  NoDup (field_names fields) -> NoDup (folded_tags fields) -> In d fields ->
  (forall k' j', In (k', j') ms ->
                 foldName k' <> foldName (tag_name (field_json d))) ->
  forall k' j', In (k', j') ms ->
                selected_name fields k' <> Some (field_name d).
Proof.
  intros Hn Ht Hd Hlater k' j' Hin Hsel.
  apply (Hlater k' j' Hin). now apply (key_selects_iff fields d k' Hn Ht Hd).
Qed.

(** X9. Decoded into a fresh struct, an [int], [string] or [bool] field
    holds the value of the last member whose key is equal up to case to
    the tag of the field. *)
Theorem last_member_sets_the_field
    (fields : list field) (d : field) (ms1 ms2 : list (string * json))
    (k : string) (j : json) (x v : value) :
  In fields declared_structs -> In d fields ->
  foldName k = foldName (tag_name (field_json d)) ->
  scalar_value (field_type d) j = Some x ->
  (forall k' j', In (k', j') ms2 ->
                 foldName k' <> foldName (tag_name (field_json d))) ->
  unmarshal (TStruct fields) (JObj (ms1 ++ (k, j) :: ms2))
    (zero (TStruct fields)) = Ok v ->
  sel (field_name d) v = Some x.
Proof.
  intros Hf Hd Hk Hx Hlater Hv.
  destruct (declared_structs_distinct fields Hf) as [Hn Ht].
  assert (Hsel : selected_name fields k = Some (field_name d))
    by now apply key_selects_iff.
  unfold selected_name in Hsel.
  destruct (select_field (key_matcher fields k) fields) as [d'|] eqn:Hsel';
    [|discriminate].
  injection Hsel as Hname.
  assert (d' = d) as ->.
  { destruct (select_field_some _ _ _ Hsel') as [Hin' _].
    exact (NoDup_map_eq field_name fields d' d Hn Hin' Hd Hname). }
  destruct (struct_field_present fields d ms1 k j ms2 v Hn Hd Hsel'
              (later_members_absent fields d ms2 Hn Ht Hd Hlater) Hv)
    as (cur & y & Hy & Hget).
  rewrite (scalar_value_unmarshal _ _ cur x Hx) in Hy.
  injection Hy as <-. exact Hget.
Qed.

End Keys.

Section Null.
Context {E : External}.

Lemma set_field_same (name : string) (x : value) (fs : list (string * value)) :
  get_field name fs = Some x -> set_field name x fs = fs.
Proof.
  induction fs as [|[n y] fs IH]; [reflexivity|]. cbn [get_field set_field].
  destruct (String.eqb n name).
  - now intros [= ->].
  - intros H. now rewrite (IH H).
Qed.

Lemma unmarshal_null (t : gotype) (cur : value) :
  is_named t = false ->
  unmarshal t JNull cur = Ok (if nilable t then VNil else cur).
Proof. destruct t; try discriminate; reflexivity. Qed.

(** X10. A member with the value [null] for a field that no earlier
    member has set changes nothing: decoded into a fresh struct, the
    payload gives what it gives without the member.  (Fields of a type
    declared outside the file, [time.Time], decode [null] by their own
    rules and are left out.) *)
Theorem null_member_is_like_no_member
    (fields : list field) (d : field) (ms1 ms2 : list (string * json))
    (k : string) :
  In fields declared_structs -> In d fields ->
  is_named (field_type d) = false ->
  foldName k = foldName (tag_name (field_json d)) ->
  (forall k' j', In (k', j') ms1 ->
                 foldName k' <> foldName (tag_name (field_json d))) ->
  unmarshal (TStruct fields) (JObj (ms1 ++ (k, JNull) :: ms2))
    (zero (TStruct fields))
  = unmarshal (TStruct fields) (JObj (ms1 ++ ms2)) (zero (TStruct fields)).
Proof.
  intros Hf Hd Hty Hk Hbefore.
  destruct (declared_structs_distinct fields Hf) as [Hn Ht].
  rewrite !unmarshal_struct, zero_struct, !decode_object_app.
  destruct (decode_object fields ms1 (zero_fields fields)) as [fs1|e] eqn:H1;
    [|reflexivity].
  cbn [bind Monad_result decode_object].
  assert (Hget : get_field (field_name d) fs1 = Some (zero (field_type d))).
  { rewrite <- (zero_fields_get fields d Hn Hd).
    eapply decode_object_absent; [|exact H1].
    now apply later_members_absent. }
  assert (Hm : decode_member fields k JNull fs1 = Ok fs1).
  { assert (Hsel : selected_name fields k = Some (field_name d))
      by now apply key_selects_iff.
    unfold selected_name in Hsel. unfold decode_member.
    destruct (select_field (key_matcher fields k) fields) as [d'|] eqn:Hsel';
      [|discriminate].
    injection Hsel as Hname.
    assert (d' = d) as ->.
    { destruct (select_field_some _ _ _ Hsel') as [Hin' _].
      exact (NoDup_map_eq field_name fields d' d Hn Hin' Hd Hname). }
    rewrite Hget, (unmarshal_null _ _ Hty). cbn [bind ret Monad_result].
    f_equal. apply set_field_same. rewrite Hget. f_equal.
    destruct (field_type d); try reflexivity. }
  rewrite Hm. reflexivity.
Qed.

End Null.

(** ** Well-typed values *)

Section Typed.
Context {E : External}.


Lemma typed_struct (ds : list field) (fs : list (string * value)) :
  typed (TStruct ds) (VStruct fs) = fields_typed ds fs.
Proof.
  cbn [typed]. revert fs.
  induction ds as [|[name ty jt ut] ds IH]; intros [|[n x] fs];
    cbn [fields_typed field_name field_type]; try reflexivity.
  now rewrite IH.
Qed.

Lemma distinct_NoDup (l : list string) : distinct l = true -> NoDup l.
Proof.
  induction l as [|x l IH]; [constructor|]. cbn [distinct].
  intros H. apply andb_prop in H. destruct H as [Hx Hl].
  constructor; [|exact (IH Hl)].
  intros Hin. apply negb_true_iff in Hx.
  assert (existsb (String.eqb x) l = true); [|congruence].
  apply existsb_exists. exists x. split; [exact Hin|apply String.eqb_refl].
Qed.

Lemma distinct_names_struct (ds : list field) :
  distinct_names (TStruct ds) = true ->
  NoDup (field_names ds)
  /\ Forall (fun d => distinct_names (field_type d) = true) ds.
Proof.
  cbn [distinct_names]. intros H. apply andb_prop in H. destruct H as [Hn Hall].
  split.
  - now apply distinct_NoDup.
  - clear Hn. induction ds as [|[name ty jt ut] ds IH]; [constructor|].
    apply andb_prop in Hall. destruct Hall as [Hty Hall].
    constructor; [exact Hty|exact (IH Hall)].
Qed.

(** Induction over Go types, with the fields of a struct in hand. *)
Lemma gotype_induction (P : gotype -> Prop) :
  P TInt -> P TString -> P TBool -> (forall name, P (TNamed name)) ->
  (forall elem, P elem -> P (TPtr elem)) ->
  (forall elem, P elem -> P (TSlice elem)) ->
  (forall fields, Forall (fun d => P (field_type d)) fields ->
                  P (TStruct fields)) ->
  forall t, P t.
Proof.
  intros HInt HString HBool HNamed HPtr HSlice HStruct.
  fix IH 1. intros [| | |name|elem|elem|fields].
  - exact HInt.
  - exact HString.
  - exact HBool.
  - apply HNamed.
  - apply HPtr, IH.
  - apply HSlice, IH.
  - apply HStruct.
    induction fields as [|[name ty jt ut] fields IHf]; constructor.
    + apply IH.
    + exact IHf.
Qed.

Lemma typed_zero (t : gotype) : typed t (zero t) = true.
Proof.
  induction t as [| | |name|elem IH|elem IH|fields IH] using gotype_induction;
    try reflexivity.
  rewrite zero_struct, typed_struct.
  induction IH as [|d ds Hd _ IHds]; [reflexivity|].
  cbn [zero_fields fields_typed]. now rewrite String.eqb_refl, Hd, IHds.
Qed.

Lemma fields_typed_get (ds : list field) (fs : list (string * value)) (d : field) :
  fields_typed ds fs = true -> NoDup (field_names ds) -> In d ds ->
  exists x, get_field (field_name d) fs = Some x
            /\ typed (field_type d) x = true.
Proof.
  revert fs. induction ds as [|d0 ds IH]; intros [|[n x] fs]; try discriminate.
  - intros _ _ [].
  - cbn [fields_typed field_names map get_field]. intros Ht Hnd Hin.
    apply andb_prop in Ht. destruct Ht as [Ht Hrest].
    apply andb_prop in Ht. destruct Ht as [Hn Hx].
    apply String.eqb_eq in Hn. subst n.
    inversion Hnd as [|? ? Hnotin Hnd']; subst.
    destruct Hin as [->|Hin].
    + rewrite String.eqb_refl. now exists x.
    + destruct (String.eqb_spec (field_name d0) (field_name d)) as [Heq|_].
      * exfalso. apply Hnotin. rewrite Heq. now apply in_map.
      * now apply IH.
Qed.

Lemma fields_typed_set (ds : list field) (fs : list (string * value))
    (d : field) (x : value) :
  fields_typed ds fs = true -> NoDup (field_names ds) -> In d ds ->
  typed (field_type d) x = true ->
  fields_typed ds (set_field (field_name d) x fs) = true.
Proof.
  revert fs. induction ds as [|d0 ds IH]; intros [|[n y] fs]; try discriminate.
  - intros _ _ [].
  - cbn [fields_typed field_names map set_field]. intros Ht Hnd Hin Hx.
    apply andb_prop in Ht. destruct Ht as [Ht Hrest].
    apply andb_prop in Ht. destruct Ht as [Hn Hy].
    apply String.eqb_eq in Hn. subst n.
    inversion Hnd as [|? ? Hnotin Hnd']; subst.
    destruct Hin as [->|Hin].
    + rewrite String.eqb_refl. cbn [fields_typed].
      now rewrite String.eqb_refl, Hx, Hrest.
    + destruct (String.eqb_spec (field_name d0) (field_name d)) as [Heq|_].
      * exfalso. apply Hnotin. rewrite Heq. now apply in_map.
      * cbn [fields_typed]. rewrite String.eqb_refl, Hy.
        now rewrite (IH fs Hrest Hnd' Hin Hx).
Qed.

Lemma decode_elems_typed (elem : gotype) :
  (forall j cur v, typed elem cur = true -> unmarshal elem j cur = Ok v ->
                   typed elem v = true) ->
  forall items old xs,
    forallb (typed elem) old = true ->
    decode_elems elem items old = Ok xs ->
    forallb (typed elem) xs = true.
Proof.
  intros Helem. induction items as [|i items IH]; intros old xs Hold;
    cbn [decode_elems].
  - now intros [= <-].
  - destruct (unmarshal elem i (hd (zero elem) old)) as [x|e] eqn:Hx;
      cbn [bind Monad_result]; [|discriminate].
    destruct (decode_elems elem items (tl old)) as [xs'|e] eqn:Hxs;
      cbn [bind ret Monad_result]; [|discriminate].
    intros [= <-]. cbn [forallb].
    assert (Hhd : typed elem (hd (zero elem) old) = true).
    { destruct old as [|o old]; [apply typed_zero|].
      cbn [forallb] in Hold. now apply andb_prop in Hold. }
    assert (Htl : forallb (typed elem) (tl old) = true).
    { destruct old as [|o old]; [reflexivity|].
      cbn [forallb] in Hold. now apply andb_prop in Hold. }
    now rewrite (Helem _ _ _ Hhd Hx), (IH _ _ Htl Hxs).
Qed.

Lemma decode_object_typed (fields : list field) :
  NoDup (field_names fields) ->
  Forall (fun d => forall j cur v,
              typed (field_type d) cur = true ->
              unmarshal (field_type d) j cur = Ok v ->
              typed (field_type d) v = true) fields ->
  forall ms fs fs',
    fields_typed fields fs = true ->
    decode_object fields ms fs = Ok fs' ->
    fields_typed fields fs' = true.
Proof.
  intros Hnd Hall. induction ms as [|[k j] ms IH]; intros fs fs' Hfs;
    cbn [decode_object].
  - now intros [= <-].
  - destruct (decode_member fields k j fs) as [fs1|e] eqn:Hm;
      cbn [bind Monad_result]; [|discriminate].
    apply IH. revert Hm. unfold decode_member.
    destruct (select_field (key_matcher fields k) fields) as [d|] eqn:Hsel;
      [|now intros [= <-]].
    destruct (select_field_some _ _ _ Hsel) as [Hin _].
    destruct (fields_typed_get fields fs d Hfs Hnd Hin) as (y & Hy & Hty).
    rewrite Hy.
    destruct (unmarshal (field_type d) j y) as [x|e] eqn:Hx;
      cbn [bind ret Monad_result]; [|discriminate].
    intros [= <-]. apply fields_typed_set; try assumption.
    rewrite Forall_forall in Hall. exact (Hall d Hin j y x Hty Hx).
Qed.

(** Decoding keeps a variable within its type. *)
Lemma unmarshal_typed (t : gotype) :
  distinct_names t = true ->
  forall j cur v,
    typed t cur = true -> unmarshal t j cur = Ok v -> typed t v = true.
Proof.
  induction t as [| | |name|elem IH|elem IH|fields IH] using gotype_induction;
    intros Hwf j cur v Hcur.
  - destruct j; cbn [unmarshal]; try discriminate.
    + now intros [= <-].
    + destruct (in_int n) eqn:Hn; [|discriminate]. now intros [= <-].
  - destruct j; cbn [unmarshal]; try discriminate; now intros [= <-].
  - destruct j; cbn [unmarshal]; try discriminate; now intros [= <-].
  - cbn [unmarshal]. destruct (unmarshalExt _ _ _); cbn [bind ret Monad_result];
      [|discriminate]. now intros [= <-].
  - assert (Hin : typed elem (match cur with VPtr x => x | _ => zero elem end)
                  = true).
    { destruct cur; try discriminate; [apply typed_zero|exact Hcur]. }
    destruct j; cbn [unmarshal]; try (now intros [= <-]);
      match goal with
      | |- context [unmarshal elem ?j ?c] =>
          destruct (unmarshal elem j c) as [x|e] eqn:Hx
      end; cbn [bind ret Monad_result]; try discriminate;
      intros [= <-]; cbn [typed]; exact (IH Hwf _ _ _ Hin Hx).
  - destruct j; try (cbn [unmarshal]; discriminate).
    + cbn [unmarshal]. now intros [= <-].
    + rewrite unmarshal_slice.
      destruct (decode_elems elem items _) as [xs|e] eqn:Hxs;
        cbn [bind ret Monad_result]; [|discriminate].
      intros [= <-]. cbn [typed].
      eapply (decode_elems_typed elem (IH Hwf)); [|exact Hxs].
      destruct cur; try reflexivity. exact Hcur.
  - destruct (distinct_names_struct fields Hwf) as [Hnd Hsub].
    destruct j; try (cbn [unmarshal]; discriminate).
    + cbn [unmarshal]. now intros [= <-].
    + rewrite unmarshal_struct.
      destruct (decode_object fields members _) as [fs'|e] eqn:Hobj;
        cbn [bind ret Monad_result]; [|discriminate].
      intros [= <-]. rewrite typed_struct.
      apply (decode_object_typed fields Hnd) with (3 := Hobj).
      * rewrite Forall_forall in *. intros d Hd. apply IH; auto.
      * destruct cur; try discriminate. now rewrite <- typed_struct.
Qed.

Lemma dependencies_distinct_names :
  distinct_names (TSlice MergeRequestDependency) = true.
Proof. vm_compute. reflexivity. Qed.

Lemma typed_dependency_shape (x : value) :
  typed MergeRequestDependency x = true ->
  exists id b p,
    x = VStruct [("ID", VInt id); ("BlockingMergeRequest", VStruct b);
                 ("ProjectID", VInt p)]
    /\ in_int id = true /\ in_int p = true
    /\ fields_typed BlockingMergeRequest_fields b = true.
Proof.
  unfold MergeRequestDependency. destruct x as [| | | | | | |fs];
    try discriminate.
  rewrite typed_struct. unfold MergeRequestDependency_fields.
  destruct fs as [|[n1 x1] [|[n2 x2] [|[n3 x3] [|? ?]]]];
    cbn [fields_typed field_name field_type json_field]; intros H;
    try discriminate H;
    repeat match goal with
           | H : _ && _ = true |- _ => apply andb_prop in H; destruct H
           end;
    try discriminate.
  repeat match goal with
         | H : String.eqb _ _ = true |- _ => apply String.eqb_eq in H
         end.
  subst n1 n2 n3.
  destruct x1 as [id| | | | | | |]; try discriminate.
  destruct x3 as [p| | | | | | |]; try discriminate.
  destruct x2 as [| | | | | | |b]; try discriminate.
  exists id, b, p. repeat split; assumption.
Qed.

(** X11. Decoding keeps the target of [GetMergeRequestDependencies]
    within its type: from a well-typed slice, a payload that decodes
    gives a slice (nil or not) of structs with the three fields of
    [MergeRequestDependency] in order, the two identifiers within the
    64 bits of an [int], and the fields of [BlockingMergeRequest] each
    of its declared type. *)
Theorem decoded_dependencies_are_well_typed (j : json) (cur v : value) :
  typed (TSlice MergeRequestDependency) cur = true ->
  unmarshal (TSlice MergeRequestDependency) j cur = Ok v ->
  typed (TSlice MergeRequestDependency) v = true
  /\ forall xs, v = VSlice xs ->
       Forall (fun x =>
                 exists id b p,
                   x = VStruct [("ID", VInt id);
                                ("BlockingMergeRequest", VStruct b);
                                ("ProjectID", VInt p)]
                   /\ in_int id = true /\ in_int p = true
                   /\ fields_typed BlockingMergeRequest_fields b = true) xs.
Proof.
  intros Hcur Hv.
  assert (Ht : typed (TSlice MergeRequestDependency) v = true)
    by exact (unmarshal_typed _ dependencies_distinct_names j cur v Hcur Hv).
  split; [exact Ht|].
  intros xs ->. cbn [typed] in Ht. rewrite forallb_forall in Ht.
  apply Forall_forall. intros x Hx. apply typed_dependency_shape. now apply Ht.
Qed.

End Typed.

(** ** Listing: bodies without records, and malformed items *)

Section ListingEdges.
Context {E : External} {T : ClientTypes} {I : Identifiers}.
Variable World : Type.
Variable newRequest :
  string -> string -> option CreateMergeRequestDependencyOptions ->
  list RequestOptionFunc -> World -> result Request * World.
Variable roundTrip :
  Request -> World -> option Response * option error * json * World.

(** The run of [GetMergeRequestDependencies] once the request is built
    and the transport has answered without an error: the outcome is
    that of decoding the body into the nil slice. *)
Lemma Get_decodes_body (pid : any) (project : string) (mergeRequest : Z)
    (options : list RequestOptionFunc) (w w1 w2 : World) (req : Request)
    (resp : option Response) (body : json) :
  parseID pid = Ok project ->
  newRequest http.MethodGet (blocks_path (PathEscape project) mergeRequest)
    None options w = (Ok req, w1) ->
  roundTrip req w1 = (resp, None, body, w2) ->
  fst (fst (run (Build_Client newRequest (Do_decoding roundTrip))
              (GetMergeRequestDependencies pid mergeRequest options) w))
  = match unmarshal (TSlice MergeRequestDependency) body VNil with
    | Ok x => (value_slice x, resp, None)
    | Err e => (None, resp, Some e)
    end.
Proof.
  intros Hpid Hnew Hrt.
  unfold GetMergeRequestDependencies. rewrite Hpid.
  cbn [run handle log_entry call bind ret Monad_prog prog_bind
         client_NewRequest client_Do].
  rewrite Hnew.
  cbn [run handle log_entry call bind ret Monad_prog prog_bind
         client_NewRequest client_Do].
  unfold Do_decoding. rewrite Hrt. cbn [slice_value].
  destruct (unmarshal (TSlice MergeRequestDependency) body VNil);
    reflexivity.
Qed.


(** X12. Against a client whose [Do] decodes the body: a [null] body
    gives a nil list and an empty array an empty list that is not nil,
    both without an error; a body that is neither gives the type error
    of the decoder and a nil list.  The response metadata comes back in
    all three cases. *)
Theorem Get_on_bodies_without_records
    (pid : any) (project : string) (mergeRequest : Z)
    (options : list RequestOptionFunc) (w w1 w2 : World) (req : Request)
    (resp : option Response) (body : json) :
  parseID pid = Ok project ->
  newRequest http.MethodGet (blocks_path (PathEscape project) mergeRequest)
    None options w = (Ok req, w1) ->
  roundTrip req w1 = (resp, None, body, w2) ->
  let out :=
    fst (fst (run (Build_Client newRequest (Do_decoding roundTrip))
                (GetMergeRequestDependencies pid mergeRequest options) w)) in
  (body = JNull -> out = (None, resp, None))
  /\ (body = JArr [] -> out = (Some [], resp, None))
  /\ (kind_of body <> "null" -> kind_of body <> "array" ->
      out = (None, resp, Some (type_error (kind_of body) "slice"))).
Proof.
  intros Hpid Hnew Hrt out. unfold out.
  rewrite (Get_decodes_body pid project mergeRequest options w w1 w2 req resp
             body Hpid Hnew Hrt).
  split; [|split].
  - now intros ->.
  - now intros ->.
  - intros Hnull Harr. destruct body; try reflexivity; contradiction.
Qed.


End ListingEdges.

(** ** The further properties at work on the test double *)

(** A failing transport: the list is nil. *)
Lemma Get_error_means_nil_list_witness :
  fst (fst (fst (fst (run (fake_client script_transport_error)
                        (Get' (DInt 1) 5 []) 0%nat)))) = None.
Proof.
  exact (@Get_error_means_nil_list raw_external fake_types model_identifiers
           nat (fake_client script_transport_error) (DInt 1) 5 [] 0%nat
           _ _ _ _ _ eq_refl ltac:(discriminate)).
Defined.

(** A successful creation: the log holds the two calls. *)
Lemma nil_error_means_completed_round_trip_witness :
  let c := fake_client (script_ok JNull) in
  let opts := {| BlockingMergeRequestID := 7 |} in
  exists project req d,
    parseID_model (DInt 42) = Ok project
    /\ snd (run c (Create' (DInt 42) 5 opts []) 0%nat)
       = [CallNewRequest "POST" (blocks_path (PathEscape_model project) 5)
            (Some opts) [] (Ok req);
          CallDo req None d]
    /\ do_err d = None /\ do_resp d = Some 200.
Proof.
  intros c opts.
  exact (proj1 (@nil_error_means_completed_round_trip raw_external fake_types
                  model_identifiers nat c (DInt 42) 5 6 opts [] 0%nat _
                  (Some 200) _) eq_refl).
Defined.

(** A response with status 500 and its error: both come from [Do]. *)
Lemma response_comes_from_Do_witness :
  let c := fake_client script_transport_error in
  exists req d,
    In (CallDo req None d) (snd (run c (Delete' (DInt 1) 5 6 []) 0%nat))
    /\ do_resp d = Some 500
    /\ do_err d = Some (errorString "500 Internal Server Error").
Proof.
  intros c.
  exact (proj1 (proj2 (@response_comes_from_Do raw_external fake_types
                         model_identifiers nat c (DInt 1) 5 6
                         {| BlockingMergeRequestID := 7 |} [] 0%nat _
                         500 _ _)) eq_refl).
Defined.

(** The list path and the delete path of one merge request differ,
    and list paths of different merge requests differ. *)
Lemma request_paths_tell_resources_apart_witness :
  blocks_path "g%2Fp" 5 <> block_path "g%2Fp" 5 6
  /\ (blocks_path "g%2Fp" 5 = blocks_path "g%2Fp" 50 -> False).
Proof.
  destruct (request_paths_tell_resources_apart "g%2Fp" "g%2Fp" 5 50 6 6
              eq_refl eq_refl) as (Hlist & _ & _).
  destruct (request_paths_tell_resources_apart "g%2Fp" "g%2Fp" 5 5 6 6
              eq_refl eq_refl) as (_ & _ & Hne).
  split; [exact Hne|]. intros Heq. destruct (Hlist Heq) as [_ H].
  discriminate H.
Defined.

(** The body of a creation with identifier 7, decoded. *)
Lemma options_body_round_trip_witness :
  @unmarshal raw_external CreateMergeRequestDependencyOptions_type
    (JObj [("blocking_merge_request_id", JNum 7)])
    (zero CreateMergeRequestDependencyOptions_type)
  = Ok (VStruct [("BlockingMergeRequestID", VInt 7)]).
Proof.
  exact (@options_body_round_trip raw_external
           {| BlockingMergeRequestID := 7 |} eq_refl).
Defined.

(** The key [TITLE] selects the field [Title]; the key [titles] selects
    no field. *)
Lemma keys_select_fields_up_to_case_witness :
  selected_name BlockingMergeRequest_fields "TITLE" = Some "Title"
  /\ (selected_name BlockingMergeRequest_fields "titles" = None
      <-> ~ In "TITLES" (folded_tags BlockingMergeRequest_fields)).
Proof.
  assert (Hd : In (json_field "Title" TString "title")
                 BlockingMergeRequest_fields)
    by (do 5 right; left; reflexivity).
  split.
  - exact (proj2 (proj1 (keys_select_fields_up_to_case
                           BlockingMergeRequest_fields
                           (json_field "Title" TString "title") "TITLE"
                           (or_intror (or_introl eq_refl)) Hd))
             ltac:(vm_compute; reflexivity)).
  - exact (proj2 (keys_select_fields_up_to_case
                    BlockingMergeRequest_fields
                    (json_field "Title" TString "title") "titles"
                    (or_intror (or_introl eq_refl)) Hd)).
Defined.

(** A dependency with a member [web_url], which the struct does not
    declare. *)
Lemma unknown_member_is_skipped_witness :
  @unmarshal raw_external MergeRequestDependency
    (JObj [("id", JNum 1); ("web_url", JStr "https://example.com");
           ("project_id", JNum 7)])
    (zero MergeRequestDependency)
  = @unmarshal raw_external MergeRequestDependency
      (JObj [("id", JNum 1); ("project_id", JNum 7)])
      (zero MergeRequestDependency).
Proof.
  refine (@unknown_member_is_skipped raw_external
            MergeRequestDependency_fields [("id", JNum 1)]
            [("project_id", JNum 7)] "web_url" (JStr "https://example.com")
            (zero MergeRequestDependency) (or_introl eq_refl) _).
  vm_compute. intros [H|[H|[H|[]]]]; discriminate H.
Defined.

(** Two members for [id]: the second one, under the key [ID], wins. *)
Lemma last_member_sets_the_field_witness :
  exists v,
    @unmarshal raw_external MergeRequestDependency
      (JObj [("id", JNum 1); ("ID", JNum 2); ("project_id", JNum 7)])
      (zero MergeRequestDependency) = Ok v
    /\ sel "ID" v = Some (VInt 2).
Proof.
  destruct (@unmarshal raw_external MergeRequestDependency
              (JObj [("id", JNum 1); ("ID", JNum 2); ("project_id", JNum 7)])
              (zero MergeRequestDependency)) as [v|e] eqn:Hv;
    [|vm_compute in Hv; discriminate Hv].
  exists v. split; [reflexivity|].
  refine (@last_member_sets_the_field raw_external
            MergeRequestDependency_fields (json_field "ID" TInt "id")
            [("id", JNum 1)] [("project_id", JNum 7)] "ID" (JNum 2)
            (VInt 2) v (or_introl eq_refl) (or_introl eq_refl) eq_refl
            eq_refl _ Hv).
  intros k' j' [[= <- <-]|[]]. vm_compute. discriminate.
Defined.

(** [id] given as [null], before [project_id]. *)
Lemma null_member_is_like_no_member_witness :
  @unmarshal raw_external MergeRequestDependency
    (JObj [("id", JNull); ("project_id", JNum 7)])
    (zero MergeRequestDependency)
  = @unmarshal raw_external MergeRequestDependency
      (JObj [("project_id", JNum 7)]) (zero MergeRequestDependency).
Proof.
  refine (@null_member_is_like_no_member raw_external
            MergeRequestDependency_fields (json_field "ID" TInt "id")
            [] [("project_id", JNum 7)] "id"
            (or_introl eq_refl) (or_introl eq_refl) eq_refl eq_refl _).
  intros k' j' [].
Defined.

(** The canned response decodes to a well-typed slice. *)
Lemma decoded_dependencies_are_well_typed_witness :
  exists v,
    @unmarshal raw_external (TSlice MergeRequestDependency) fixture VNil = Ok v
    /\ typed (TSlice MergeRequestDependency) v = true.
Proof.
  destruct (@unmarshal raw_external (TSlice MergeRequestDependency) fixture
              VNil) as [v|e] eqn:Hv; [|vm_compute in Hv; discriminate Hv].
  exists v. split; [reflexivity|].
  exact (proj1 (@decoded_dependencies_are_well_typed raw_external fixture VNil
                  v eq_refl Hv)).
Defined.

(** The bodies [null], [[]] and [{}]. *)
Lemma Get_on_bodies_without_records_witness :
  fst (fst (run (fake_client (script_ok JNull)) (Get' (DInt 1) 5 []) 0%nat))
  = (None, Some 200, None)
  /\ fst (fst (run (fake_client (script_ok (JArr [])))
                 (Get' (DInt 1) 5 []) 0%nat))
     = (Some [], Some 200, None)
  /\ fst (fst (run (fake_client (script_ok (JObj [])))
                 (Get' (DInt 1) 5 []) 0%nat))
     = (None, Some 200, Some (type_error "object" "slice")).
Proof.
  pose (H := fun b =>
          @Get_on_bodies_without_records raw_external fake_types
            model_identifiers nat (fake_NewRequest (script_ok b))
            (fake_roundTrip (script_ok b)) (DInt 1) "1" 5 [] 0%nat 0%nat 1%nat
            ("GET", "projects/1/merge_requests/5/blocks") (Some 200) b
            eq_refl eq_refl eq_refl).
  split; [|split].
  - exact (proj1 (H JNull) eq_refl).
  - exact (proj1 (proj2 (H (JArr []))) eq_refl).
  - refine (proj2 (proj2 (H (JObj []))) _ _); discriminate.
Defined.

